(** * Shape recognition and derived constructions of [agent/tools/acad.py]

    A shallow embedding of the geometry engine of [src/agent/tools/acad.py]
    and the properties stated for it.

    Modelling conventions.
    - Python floats are idealised as real numbers ([R]): [+], [-], [*], [/],
      [abs], [max], [min], [math.hypot], [math.acos] and [round] are the exact
      real operations.  Rounding error, infinities and NaN are outside the
      model.
    - An operation that raises in Python (a float division by zero,
      [math.acos] outside [-1,1], [list.pop] on an empty list) returns
      [Raise] in the model; everything that calls it threads the exception.
    - The drawing session is a list of entities (the model space, read) and a
      trace of the calls made on it (written). *)

From Stdlib Require Import String.
From Stdlib Require Import Reals Lra Lia ZArith List Permutation Bool.
From Stdlib Require Import Psatz.
Import ListNotations.
Open Scope R_scope.

(** * Part I: the program *)

(** ** Python runtime: exceptions and float comparisons *)

Inductive exn : Set :=
| ZeroDivisionError
| ValueError
| IndexError.

Inductive res (A : Type) : Type :=
| Ret (a : A)
| Raise (e : exn).
Arguments Ret {A} a.
Arguments Raise {A} e.

Definition bind {A B : Type} (m : res A) (k : A -> res B) : res B :=
  match m with
  | Ret a => k a
  | Raise e => Raise e
  end.

Notation "x <- m ;; k" := (bind m (fun x => k))
  (at level 61, m at next level, right associativity).

Definition Rleb (x y : R) : bool := if Rle_dec x y then true else false.
Definition Rltb (x y : R) : bool := if Rlt_dec x y then true else false.
Definition Reqb (x y : R) : bool := if Req_dec_T x y then true else false.

(** [x / y] on floats: [ZeroDivisionError] when [y == 0.0]. *)
Definition py_div (x y : R) : res R :=
  if Reqb y 0 then Raise ZeroDivisionError else Ret (x / y).

(** [x or d] on floats: [d] when [x == 0.0]. *)
Definition py_or (x d : R) : R := if Reqb x 0 then d else x.

(** [math.acos]: [ValueError] outside [-1, 1]. *)
Definition py_acos (x : R) : res R :=
  if Rleb (-1) x && Rleb x 1 then Ret (acos x) else Raise ValueError.

(** [math.degrees]. *)
Definition degrees (x : R) : R := x * (180 / PI).

(** [math.hypot]. *)
Definition hypot (x y : R) : R := sqrt (x * x + y * y).

(** ** Settings (module-level defaults) *)

Definition _POS_TOL : R := / 1000000.
Definition _ANG_TOL_DEG : R := 1.
Definition _REL_LEN_TOL : R := 2 / 100.
Definition _MIN_SIDE : R := / 1000000.

(** ** Geometry helpers *)

Abbreviation point := (R * R)%type (only parsing).

Definition _dist (p q : point) : R :=
  hypot (fst p - fst q) (snd p - snd q).

Definition _near (a b rel_tol abs_tol : R) : res bool :=
  if Rleb (Rabs (a - b)) abs_tol then Ret true
  else
    let m := Rmax (Rmax (Rabs a) (Rabs b)) abs_tol in
    q <- py_div (Rabs (a - b)) m ;;
    Ret (Rleb q rel_tol).

Definition _angle_deg (a b c : point) : res R :=
  let v1 := (fst a - fst b, snd a - snd b) in
  let v2 := (fst c - fst b, snd c - snd b) in
  let n1 := py_or (hypot (fst v1) (snd v1)) 1 in
  let n2 := py_or (hypot (fst v2) (snd v2)) 1 in
  v1x <- py_div (fst v1) n1 ;;
  v1y <- py_div (snd v1) n1 ;;
  v2x <- py_div (fst v2) n2 ;;
  v2y <- py_div (snd v2) n2 ;;
  let dot := Rmax (-1) (Rmin 1 (v1x * v2x + v1y * v2y)) in
  t <- py_acos dot ;;
  Ret (degrees t).

(** ** Polygon math *)

(** [sum(...)] over floats: left to right from [0]. *)
Definition py_sum (l : list R) : R := fold_left Rplus l 0.

(** [pts2[i]]; every use below has [i] in range. *)
Definition nth_pt (pts2 : list point) (i : nat) : point := nth i pts2 (0, 0).

(** [_bbox_from_points_2d]: [None] for an empty list, else the
    component-wise [min] and [max]. *)
Definition _bbox_from_points_2d (pts2 : list point) : option (point * point) :=
  match pts2 with
  | [] => None
  | p :: rest =>
      let xs := map fst rest in
      let ys := map snd rest in
      Some ((fold_left Rmin xs (fst p), fold_left Rmin ys (snd p)),
            (fold_left Rmax xs (fst p), fold_left Rmax ys (snd p)))
  end.

(** The body of the shoelace loops: the edge from vertex [i] to vertex
    [(i + 1) % n]. *)
Definition edge_at (pts2 : list point) (i : nat) : point * point :=
  (nth_pt pts2 i, nth_pt pts2 ((i + 1) mod (length pts2))).

Definition cross (e : point * point) : R :=
  let '((x1, y1), (x2, y2)) := e in x1 * y2 - x2 * y1.

Definition _poly_area_xy (pts2 : list point) : R :=
  if (length pts2 <? 3)%nat then 0
  else
    let n := length pts2 in
    let s := fold_left (fun s i => s + cross (edge_at pts2 i)) (seq 0 n) 0 in
    Rabs s * (5 / 10).

(** One iteration of the loop of [_centroid] on the accumulators
    [(signed_sum, cx_num, cy_num)]. *)
Definition centroid_step (pts2 : list point) (acc : R * R * R) (i : nat)
  : R * R * R :=
  let '(signed_sum, cx_num, cy_num) := acc in
  let '((x1, y1), (x2, y2)) := edge_at pts2 i in
  let c := x1 * y2 - x2 * y1 in
  (signed_sum + c, cx_num + (x1 + x2) * c, cy_num + (y1 + y2) * c).

Definition _centroid (pts2 : list point) : res point :=
  let n := length pts2 in
  if (n <? 3)%nat then
    x <- py_div (py_sum (map fst pts2)) (INR (Nat.max 1 n)) ;;
    y <- py_div (py_sum (map snd pts2)) (INR (Nat.max 1 n)) ;;
    Ret (x, y)
  else
    let '(signed_sum, cx_num, cy_num) :=
      fold_left (centroid_step pts2) (seq 0 n) (0, 0, 0) in
    A <- py_div signed_sum 2 ;;
    if Rleb (Rabs A) _POS_TOL then
      x <- py_div (py_sum (map fst pts2)) (INR n) ;;
      y <- py_div (py_sum (map snd pts2)) (INR n) ;;
      Ret (x, y)
    else
      cx <- py_div cx_num (6 * A) ;;
      cy <- py_div cy_num (6 * A) ;;
      Ret (cx, cy).

(** ** Python lists: stable sort, [pop(0)], loops that may raise *)

Section Sorting.
Context {A K : Type}.
Variable ltk : K -> K -> bool.
Variable key : A -> K.

(** [x] goes in front of the first element whose key is not smaller. *)
Fixpoint insert_by (x : A) (l : list A) : list A :=
  match l with
  | [] => [x]
  | y :: t => if ltk (key y) (key x) then y :: insert_by x t else x :: y :: t
  end.

(** [list.sort(key=...)]: stable, comparing keys with [<]. *)
Fixpoint py_sort (l : list A) : list A :=
  match l with
  | [] => []
  | x :: t => insert_by x (py_sort t)
  end.
End Sorting.

(** [l.pop(0)]. *)
Definition py_pop0 {A : Type} (l : list A) : res (A * list A) :=
  match l with
  | [] => Raise IndexError
  | x :: t => Ret (x, t)
  end.

(** [for _ in range(n): st = step(st)]. *)
Fixpoint repeatM {S : Type} (n : nat) (step : S -> res S) (st : S) : res S :=
  match n with
  | O => Ret st
  | S n' => st' <- step st ;; repeatM n' step st'
  end.

(** [any(f(x) for x in l)], where [f] may raise: stops at the first [True]. *)
Fixpoint anyM {A : Type} (f : A -> res bool) (l : list A) : res bool :=
  match l with
  | [] => Ret false
  | x :: t => b <- f x ;; if b then Ret true else anyM f t
  end.

(** [[f(x) for x in l]], where [f] may raise. *)
Fixpoint mapM {A B : Type} (f : A -> res B) (l : list A) : res (list B) :=
  match l with
  | [] => Ret []
  | x :: t => y <- f x ;; ys <- mapM f t ;; Ret (y :: ys)
  end.

(** [<] on pairs of floats, as Python compares tuples. *)
Definition lex_ltb (p q : point) : bool :=
  Rltb (fst p) (fst q) || (Reqb (fst p) (fst q) && Rltb (snd p) (snd q)).

(** ** The loop re-ordering step *)

(** One round of the greedy walk of [_order_loop]: sort the remaining points
    by distance to the current one, take the nearest. *)
Definition order_step (st : list point * point * list point)
  : res (list point * point * list point) :=
  let '(ordered, current, rest) := st in
  let rest := py_sort Rltb (fun p => _dist current p) rest in
  nr <- py_pop0 rest ;;
  let '(nxt, rest) := nr in
  Ret (ordered ++ [nxt], nxt, rest).

Definition _order_loop (points : list point) : res (list point) :=
  if negb (length points =? 4)%nat then Ret points
  else
    let pts := py_sort lex_ltb (fun p : point => (fst p, snd p)) points in
    nr <- py_pop0 pts ;;
    let '(start, rest) := nr in
    st <- repeatM 3 order_step ([start], start, rest) ;;
    let '(ordered, _, _) := st in
    Ret ordered.

(** ** Quantization of segment endpoints *)

(** [round(x)] on a float: the nearest integer, a tie going to the even
    one. *)
Definition py_round (x : R) : Z :=
  let f := Zfloor x in
  let d := x - IZR f in
  if Rltb d (1 / 2) then f
  else if Rltb (1 / 2) d then (f + 1)%Z
  else if Z.even f then f else (f + 1)%Z.

(** The local function [key_pt] of [_find_loops_from_lines]. *)
Definition key_pt (pos_tol : R) (p : point) : res point :=
  qx <- py_div (fst p) pos_tol ;;
  qy <- py_div (snd p) pos_tol ;;
  Ret (IZR (py_round qx) * pos_tol, IZR (py_round qy) * pos_tol).

(** ** The shape classifier *)

(** The four interior angles, each vertex against its two loop
    neighbours. *)
Definition loop_angles (v0 v1 v2 v3 : point) : res (list R) :=
  mapM (fun t : point * point * point =>
          let '(a, b, c) := t in _angle_deg a b c)
       [(v3, v0, v1); (v0, v1, v2); (v1, v2, v3); (v2, v3, v0)].

Definition _is_square_vertices (verts : list point)
           (ang_tol_deg rel_len_tol min_side : R) : res bool :=
  match verts with
  | [v0; v1; v2; v3] =>
      let sides := [_dist v0 v1; _dist v1 v2; _dist v2 v3; _dist v3 v0] in
      if existsb (fun s => Rltb s min_side) sides then Ret false
      else
        let s_mean := py_sum sides / 4 in
        uneven <- anyM (fun s => b <- _near s s_mean rel_len_tol _POS_TOL ;;
                                 Ret (negb b)) sides ;;
        if uneven then Ret false
        else
          angs <- loop_angles v0 v1 v2 v3 ;;
          if existsb (fun a => Rltb ang_tol_deg (Rabs (a - 90))) angs
          then Ret false
          else Ret true
  | _ => Ret false
  end.

Definition _is_rectangle_vertices (verts : list point)
           (ang_tol_deg rel_len_tol min_side : R) : res bool :=
  match verts with
  | [v0; v1; v2; v3] =>
      let s0 := _dist v0 v1 in
      let s1 := _dist v1 v2 in
      let s2 := _dist v2 v3 in
      let s3 := _dist v3 v0 in
      if existsb (fun s => Rltb s min_side) [s0; s1; s2; s3] then Ret false
      else
        angs <- loop_angles v0 v1 v2 v3 ;;
        if existsb (fun a => Rltb ang_tol_deg (Rabs (a - 90))) angs
        then Ret false
        else
          n02 <- _near s0 s2 rel_len_tol _POS_TOL ;;
          if n02 then _near s1 s3 rel_len_tol _POS_TOL else Ret false
  | _ => Ret false
  end.

(** ** The drawing: entities of the model space

    An entity is what the code reads of a COM object.  The constructor
    stands for the test on [ObjectName]: [Polyline] for a name containing
    "polyline", [Line] for one containing "line" and not "polyline",
    [Circle] for one containing "circle", [Other] for the rest.  Every
    attribute is readable, so the [except] branches that skip an unreadable
    entity are not taken. *)

Inductive entity : Type :=
| Polyline (Handle Layer : string) (Closed : bool) (Coordinates : list R)
| Line (Handle Layer : string) (StartPoint EndPoint : R * R * R)
| Circle (Handle Layer : string) (Center : R * R * R) (Radius : R)
| Other (Handle Layer : string).

Definition Layer_of (e : entity) : string :=
  match e with
  | Polyline _ l _ _ | Line _ l _ _ | Circle _ l _ _ | Other _ l => l
  end.

(** Truth value of an optional string: [None] and [""] are false. *)
Definition truthy (s : option string) : bool :=
  match s with
  | None => false
  | Some s => negb (String.eqb s "")
  end.

(** [a or b] on optional strings. *)
Definition or_str (a b : option string) : option string :=
  if truthy a then a else b.

(** [not (layer and e.Layer != layer)]. *)
Definition on_layer (layer : option string) (e : entity) : bool :=
  match layer with
  | Some l => if truthy layer then String.eqb (Layer_of e) l else true
  | None => true
  end.

(** The flat array read three by three; [None] is the [IndexError] of a
    length that is not a multiple of 3. *)
Fixpoint chunk3 (arr : list R) : option (list (R * R * R)) :=
  match arr with
  | [] => Some []
  | x :: y :: z :: t => option_map (cons (x, y, z)) (chunk3 t)
  | _ => None
  end.

(** The flat array read two by two, with [z = 0.0]. *)
Fixpoint chunk2 (arr : list R) : option (list (R * R * R)) :=
  match arr with
  | [] => Some []
  | x :: y :: t => option_map (cons (x, y, 0)) (chunk2 t)
  | _ => None
  end.

Definition _coords_from_polyline (Coordinates : list R) : list (R * R * R) :=
  match chunk3 Coordinates with
  | Some pts => pts
  | None =>
      match chunk2 Coordinates with
      | Some pts2d => pts2d
      | None => []
      end
  end.

Definition _polyline_vertices_2d_ordered (Coordinates : list R) : list point :=
  let pts3 := _coords_from_polyline Coordinates in
  match pts3 with
  | [] => []
  | _ =>
      let pts2 := map (fun p : R * R * R => (fst (fst p), snd (fst p))) pts3 in
      if (2 <=? length pts2)%nat
         && Rleb (_dist (hd (0, 0) pts2) (last pts2 (0, 0))) _POS_TOL
      then removelast pts2
      else pts2
  end.

(** An entry of the ["polylines"] list of [find_closed_polylines]. *)
Record polyline_info : Type := {
  pl_handle : string;
  pl_layer : string;
  pl_vertices : list point;
  pl_area : R;
  pl_bbox : option (point * point)
}.

Definition closed_polyline_info (layer : option string) (min_vertices : nat)
           (min_area : R) (e : entity) : option polyline_info :=
  match e with
  | Polyline h l closed coords =>
      if negb (on_layer layer e) then None
      else if negb closed then None
      else
        let verts2 := _polyline_vertices_2d_ordered coords in
        if (length verts2 <? min_vertices)%nat then None
        else
          let area := _poly_area_xy verts2 in
          if Rltb area min_area then None
          else Some {| pl_handle := h; pl_layer := l; pl_vertices := verts2;
                       pl_area := area;
                       pl_bbox := _bbox_from_points_2d verts2 |}
  | _ => None
  end.

(** [find_closed_polylines(...)["polylines"]]: the entries in drawing
    order. *)
Fixpoint find_closed_polylines (ms : list entity) (layer : option string)
         (min_vertices : nat) (min_area : R) : list polyline_info :=
  match ms with
  | [] => []
  | e :: rest =>
      match closed_polyline_info layer min_vertices min_area e with
      | Some info => info :: find_closed_polylines rest layer min_vertices min_area
      | None => find_closed_polylines rest layer min_vertices min_area
      end
  end.

(** ** The loop assembler

    The adjacency [dict] of [set]s and the [set] of loops are lists without
    repetition.  Python leaves the iteration order of a [set] open; the
    model iterates in insertion order, and nothing proved below depends on
    that order. *)

Definition point_eqb (p q : point) : bool :=
  Reqb (fst p) (fst q) && Reqb (snd p) (snd q).

Fixpoint loop_eqb (l1 l2 : list point) : bool :=
  match l1, l2 with
  | [], [] => true
  | p :: t1, q :: t2 => point_eqb p q && loop_eqb t1 t2
  | _, _ => false
  end.

(** [s.add(x)]. *)
Definition set_add {A : Type} (eqb : A -> A -> bool) (x : A) (s : list A)
  : list A :=
  if existsb (eqb x) s then s else s ++ [x].

Definition adjacency : Type := list (point * list point).

(** [adj.setdefault(k1, set()).add(k2)]. *)
Fixpoint adj_add (adj : adjacency) (k1 k2 : point) : adjacency :=
  match adj with
  | [] => [(k1, [k2])]
  | (k, s) :: t =>
      if point_eqb k k1 then (k, set_add point_eqb k2 s) :: t
      else (k, s) :: adj_add t k1 k2
  end.

(** [adj.get(k, [])]. *)
Definition adj_get (adj : adjacency) (k : point) : list point :=
  match find (fun e : point * list point => point_eqb (fst e) k) adj with
  | Some (_, s) => s
  | None => []
  end.

(** [for x in l: st = step(st, x)], where [step] may raise. *)
Fixpoint foldM {S A : Type} (step : S -> A -> res S) (l : list A) (st : S)
  : res S :=
  match l with
  | [] => Ret st
  | x :: t => st' <- step st x ;; foldM step t st'
  end.

(** The segments of the [LINE] entities handed over. *)
Definition segment_of (e : entity) : option (point * point) :=
  match e with
  | Line _ _ sp ep =>
      Some ((fst (fst sp), snd (fst sp)), (fst (fst ep), snd (fst ep)))
  | _ => None
  end.

Fixpoint segments_of (lines : list entity) : list (point * point) :=
  match lines with
  | [] => []
  | e :: rest =>
      match segment_of e with
      | Some s => s :: segments_of rest
      | None => segments_of rest
      end
  end.

Definition build_adjacency (pos_tol : R) (segs : list (point * point))
  : res adjacency :=
  foldM (fun adj (s : point * point) =>
           k1 <- key_pt pos_tol (fst s) ;;
           k2 <- key_pt pos_tol (snd s) ;;
           Ret (adj_add (adj_add adj k1 k2) k2 k1))
        segs [].

(** [min(range(4), key=lambda i: quad[i])]: the first index of a smallest
    point. *)
Definition min_index (quad : list point) : nat :=
  fold_left (fun best i =>
               if lex_ltb (nth_pt quad i) (nth_pt quad best) then i else best)
            [1; 2; 3]%nat 0%nat.

(** The 4-cycles through the edge [k1 -> k2], each rotated to start at its
    smallest point and added to the set [loops]. *)
Definition cycles_through (adj : adjacency) (k1 k2 : point)
           (loops : list (list point)) : list (list point) :=
  fold_left
    (fun loops k3 =>
       if point_eqb k3 k1 then loops
       else
         fold_left
           (fun loops k4 =>
              if point_eqb k4 k2 || point_eqb k4 k1 then loops
              else if existsb (point_eqb k1) (adj_get adj k4) then
                let quad := [k1; k2; k3; k4] in
                let min_i := min_index quad in
                let ordered := skipn min_i quad ++ firstn min_i quad in
                set_add loop_eqb ordered loops
              else loops)
           (adj_get adj k3) loops)
    (adj_get adj k2) loops.

Definition _find_loops_from_lines (lines : list entity) (pos_tol : R)
  : res (list (list point)) :=
  let segs := segments_of lines in
  adj <- build_adjacency pos_tol segs ;;
  loops <- foldM (fun loops (s : point * point) =>
                    k1 <- key_pt pos_tol (fst s) ;;
                    k2 <- key_pt pos_tol (snd s) ;;
                    Ret (cycles_through adj k1 k2 loops))
                 segs [] ;;
  mapM _order_loop loops.

(** ** The shape-detection pipeline *)

Inductive source_tag : Set := polyline | lines.

(** An entry of the ["squares"] list of [find_squares]. *)
Record square : Type := {
  sq_source : source_tag;
  sq_handles : list string;
  sq_vertices : list point;
  sq_center : point;
  sq_side : R;
  sq_bbox : option (point * point)
}.

Section FindSquares.
Variables (ang_tol_deg rel_len_tol min_side : R).
Variable max_count : Z.
Variable allow_rectangles : bool.

(** The test both loops of [find_squares] apply to a vertex list. *)
Definition qualifies (vs : list point) : res bool :=
  if (length vs =? 4)%nat then
    sq <- _is_square_vertices vs ang_tol_deg rel_len_tol min_side ;;
    if sq then Ret true
    else if allow_rectangles
         then _is_rectangle_vertices vs ang_tol_deg rel_len_tol min_side
         else Ret false
  else Ret false.

(** The entry appended for a qualifying vertex list. *)
Definition make_square (src : source_tag) (hs : list string)
           (vs : list point) (bbox : option (point * point)) : res square :=
  center <- _centroid vs ;;
  let side := Rmin (_dist (nth_pt vs 0) (nth_pt vs 1))
                   (_dist (nth_pt vs 1) (nth_pt vs 2)) in
  Ret {| sq_source := src; sq_handles := hs; sq_vertices := vs;
         sq_center := center; sq_side := side; sq_bbox := bbox |}.

(** One candidate of either loop: its provenance, handles, vertices and
    bounding box. *)
Definition candidate : Type :=
  (source_tag * list string * list point * option (point * point))%type.

(** The body shared by the two loops.  The flag of the result is [true]
    when the function returned from inside the loop, the cap reached. *)
Fixpoint collect (cands : list candidate) (squares : list square)
  : res (bool * list square) :=
  match cands with
  | [] => Ret (false, squares)
  | (src, hs, vs, bbox) :: rest =>
      q <- qualifies vs ;;
      if q then
        sq <- make_square src hs vs bbox ;;
        let squares := squares ++ [sq] in
        if (max_count <=? Z.of_nat (length squares))%Z
        then Ret (true, squares)
        else collect rest squares
      else collect rest squares
  end.

Definition polyline_candidate (poly : polyline_info) : candidate :=
  (polyline, [pl_handle poly], pl_vertices poly, pl_bbox poly).

Definition lines_candidate (vs : list point) : candidate :=
  (lines, [], vs, _bbox_from_points_2d vs).

Definition is_line (e : entity) : bool :=
  match e with
  | Line _ _ _ _ => true
  | _ => false
  end.

(** [find_squares(...)["squares"]]; the result is always [ok]. *)
Definition find_squares (ms : list entity) (layer : option string)
           (include_lines : bool) (pos_tol : R) : res (list square) :=
  let polys := find_closed_polylines ms layer 4 (min_side * min_side) in
  r <- collect (map polyline_candidate polys) [] ;;
  let '(returned, squares) := r in
  if returned then Ret squares
  else if include_lines then
    let line_datas := filter (fun e => on_layer layer e && is_line e) ms in
    loops <- _find_loops_from_lines line_datas pos_tol ;;
    r <- collect (map lines_candidate loops) squares ;;
    Ret (snd r)
  else Ret squares.
End FindSquares.

(** ** The drawing: calls made on the session

    What a tool draws is the list of calls it makes, in order.  Every call
    succeeds, so the [except] branches that skip a failed call are not
    taken; the handle the session gives a new entity is not modelled. *)

(** The [color] argument: an [int] or a [str]. *)
Inductive pycolor : Set :=
| color_int (aci : Z)
| color_str (name : string).

Inductive call : Type :=
| ensure_layer (name : string) (color : pycolor)
| set_current_layer (name : string)
| AddLine (start end_ : point) (layer : option string)
| AddPolyline (flat3d : list R) (closed : bool) (layer : option string)
| AddCircle (center : point) (radius : R) (layer : option string).

(** A result [dict]: [{"ok": True, ...}] with its payload, or
    [{"ok": False, "reason": ...}]. *)
Inductive result (A : Type) : Type :=
| Ok (payload : A)
| NotOk (reason : string).
Arguments Ok {A} payload.
Arguments NotOk {A} reason.

Definition ok {A : Type} (r : result A) : bool :=
  match r with
  | Ok _ => true
  | NotOk _ => false
  end.

(** [if layer: e.Layer = layer]: the layer set on a new entity, if any. *)
Definition layer_set (layer : option string) : option string :=
  if truthy layer then layer else None.

Definition _to_3d_flat (points_2d : list point) : list R :=
  flat_map (fun p : point => [fst p; snd p; 0]) points_2d.

Definition draw_line (start end_ : point) (layer : option string) : call :=
  AddLine start end_ (layer_set layer).

Definition draw_polyline (points : list point) (layer : option string)
           (closed : bool) : call :=
  let pts :=
    match points with
    | [] => points
    | p0 :: _ =>
        if closed && Rltb _POS_TOL (_dist p0 (last points (0, 0)))
        then points ++ [p0]
        else points
    end in
  AddPolyline (_to_3d_flat pts) closed (layer_set layer).

Definition draw_rectangle (base : point) (width height : R)
           (layer : option string) : call :=
  let x := fst base in
  let y := snd base in
  let w := width in
  let h := height in
  let pts := [(x, y); (x + w, y); (x + w, y + h); (x, y + h)] in
  draw_polyline pts layer true.

Definition draw_circle (center : point) (radius : R) (layer : option string)
  : call :=
  AddCircle center radius (layer_set layer).

(** ** Inscribing a square in each circle *)

(** The loop of [inscribe_squares_in_circles] from [inserted] squares on:
    the final count and the calls made. *)
Fixpoint inscribe_loop (layer_name : string) (layer_filter : option string)
         (max_count : Z) (ms : list entity) (inserted : Z) : Z * list call :=
  match ms with
  | [] => (inserted, [])
  | e :: rest =>
      match e with
      | Circle _ _ c r =>
          if negb (on_layer layer_filter e)
          then inscribe_loop layer_name layer_filter max_count rest inserted
          else
            let cx := fst (fst c) in
            let cy := snd (fst c) in
            let half := r / sqrt 2 in
            let base := (cx - half, cy - half) in
            let size := half * 2 in
            let drawn := draw_rectangle base size size (Some layer_name) in
            let inserted := (inserted + 1)%Z in
            if (max_count <=? inserted)%Z then (inserted, [drawn])
            else
              let '(n, calls) :=
                inscribe_loop layer_name layer_filter max_count rest inserted in
              (n, drawn :: calls)
      | _ => inscribe_loop layer_name layer_filter max_count rest inserted
      end
  end.

(** [inscribe_squares_in_circles]: the ["inserted"] count and ["layer"] of
    its result, which is always [ok], and the calls made. *)
Definition inscribe_squares_in_circles (ms : list entity) (layer_name : string)
           (color : pycolor) (layer_filter : option string) (max_count : Z)
  : Z * string * list call :=
  let '(inserted, calls) :=
    inscribe_loop layer_name layer_filter max_count ms 0 in
  (inserted, layer_name,
   ensure_layer layer_name color :: set_current_layer layer_name :: calls).

(** ** Picking the largest polyline or circle *)

(** [l.sort(key=..., reverse=True)]: descending, equal keys in their
    original order. *)
Definition py_sort_reverse {A : Type} (key : A -> R) (l : list A) : list A :=
  py_sort (fun a b => Rltb b a) key l.

Definition pick_largest_closed_polyline (ms : list entity)
           (layer : option string) : result polyline_info :=
  let polys := find_closed_polylines ms layer 3 (_MIN_SIDE * _MIN_SIDE) in
  match polys with
  | [] => NotOk "no_closed_polylines"
  | p0 :: _ => Ok (hd p0 (py_sort_reverse pl_area polys))
  end.

(** An entry of the ["circles"] list of [find_circles]. *)
Record circle_info : Type := {
  c_handle : string;
  c_layer : string;
  c_center : point;
  c_radius : R;
  c_bbox : point * point
}.

(** The loop of [find_circles] on the list [circles] built so far. *)
Fixpoint find_circles_loop (layer : option string) (min_radius : R)
         (max_count : Z) (ms : list entity) (circles : list circle_info)
  : list circle_info :=
  match ms with
  | [] => circles
  | e :: rest =>
      match e with
      | Circle h l c r =>
          if negb (on_layer layer e)
          then find_circles_loop layer min_radius max_count rest circles
          else if Rltb r min_radius
          then find_circles_loop layer min_radius max_count rest circles
          else
            let cx := fst (fst c) in
            let cy := snd (fst c) in
            let circles :=
              circles ++ [ {| c_handle := h; c_layer := l;
                              c_center := (cx, cy); c_radius := r;
                              c_bbox := ((cx - r, cy - r), (cx + r, cy + r)) |} ] in
            if (max_count <=? Z.of_nat (length circles))%Z then circles
            else find_circles_loop layer min_radius max_count rest circles
      | _ => find_circles_loop layer min_radius max_count rest circles
      end
  end.

Definition find_circles (ms : list entity) (layer : option string)
           (min_radius : R) (max_count : Z) : list circle_info :=
  find_circles_loop layer min_radius max_count ms [].

Definition pick_largest_circle (ms : list entity) (layer : option string)
  : result circle_info :=
  let cs := find_circles ms layer 0 5000 in
  match cs with
  | [] => NotOk "no_circles"
  | c0 :: _ => Ok (hd c0 (py_sort_reverse c_radius cs))
  end.

(** ** The stacked-circle figure *)

Section Snowman.
Variables (layer_source layer_result : option string).
Variable color : pycolor.
Variables (middle_scale head_scale gap_ratio eye_scale : R).
Variables (draw_arms draw_legs : bool).
Variables (hand_scale foot_scale : R).

(** [layer_result or layer_source or "SNOWMAN"]. *)
Definition snowman_layer_name : string :=
  match or_str layer_result layer_source with
  | Some name => if truthy (Some name) then name else "SNOWMAN"
  | None => "SNOWMAN"
  end.

(** The draws of [make_snowman_from_circle] once the base circle is
    picked. *)
Definition snowman_calls (base : circle_info) : list call :=
  let layer := or_str layer_result layer_source in
  let cx := fst (c_center base) in
  let cy := snd (c_center base) in
  let R_ := c_radius base in
  let gap := gap_ratio * R_ in
  let R_mid := middle_scale * R_ in
  let R_head := head_scale * R_ in
  let c_base := (cx, cy) in
  let c_mid := (cx, cy + R_ + gap + R_mid) in
  let c_head := (cx, snd c_mid + R_mid + gap + R_head) in
  let eye_r := Rmax (R_head * eye_scale) _MIN_SIDE in
  let eye_dx := R_head * (3 / 10) in
  let eye_dy := R_head * (15 / 100) in
  [ draw_circle c_base R_ layer;
    draw_circle c_mid R_mid layer;
    draw_circle c_head R_head layer;
    draw_circle (fst c_head - eye_dx, snd c_head + eye_dy) eye_r layer;
    draw_circle (fst c_head + eye_dx, snd c_head + eye_dy) eye_r layer ]
  ++ (if draw_arms then
        let arm_len := R_mid * (12 / 10) in
        let up := R_mid * (3 / 10) in
        let p1l := (fst c_mid - R_mid * (9 / 10), snd c_mid + up * (2 / 10)) in
        let p2l := (fst p1l - arm_len, snd p1l + up) in
        let p1r := (fst c_mid + R_mid * (9 / 10), snd c_mid + up * (2 / 10)) in
        let p2r := (fst p1r + arm_len, snd p1r + up) in
        [ draw_line p1l p2l layer;
          draw_circle p2l (Rmax (R_head * hand_scale) _MIN_SIDE) layer;
          draw_line p1r p2r layer;
          draw_circle p2r (Rmax (R_head * hand_scale) _MIN_SIDE) layer ]
      else [])
  ++ (if draw_legs then
        let leg_len := R_ * (7 / 10) in
        let base_y := snd c_base - R_ in
        let l1 := (fst c_base - R_ * (35 / 100), base_y + R_ * (2 / 10)) in
        let l2 := (fst l1 - R_ * (5 / 10), snd l1 - leg_len) in
        let r1 := (fst c_base + R_ * (35 / 100), base_y + R_ * (2 / 10)) in
        let r2 := (fst r1 + R_ * (5 / 10), snd r1 - leg_len) in
        [ draw_line l1 l2 layer;
          draw_circle l2 (Rmax (R_ * foot_scale) _MIN_SIDE) layer;
          draw_line r1 r2 layer;
          draw_circle r2 (Rmax (R_ * foot_scale) _MIN_SIDE) layer ]
      else []).

Definition make_snowman_from_circle (ms : list entity)
  : result circle_info * list call :=
  let prepare := [ ensure_layer snowman_layer_name color;
                   set_current_layer snowman_layer_name ] in
  match pick_largest_circle ms layer_source with
  | NotOk reason => (NotOk reason, prepare)
  | Ok base => (Ok base, prepare ++ snowman_calls base)
  end.
End Snowman.

(** ** The roof over the largest square *)

Definition bbox_area (b : point * point) : R :=
  let '((x1, y1), (x2, y2)) := b in
  Rmax 0 ((x2 - x1) * (y2 - y1)).

(** [max(l, key=...)] on a non-empty list: the first element of largest
    key. *)
Definition py_max_by {A : Type} (key : A -> R) (x : A) (rest : list A) : A :=
  fold_left (fun best y => if Rltb (key best) (key y) then y else best) rest x.

(** [s.get("bbox") or _bbox_from_points_2d(s.get("vertices", []))]. *)
Definition square_bbox (s : square) : option (point * point) :=
  match sq_bbox s with
  | Some b => Some b
  | None => _bbox_from_points_2d (sq_vertices s)
  end.

(** The key of the [max] of the fallback: the area of the bounding box,
    of [((0,0),(0,0))] when there is none. *)
Definition square_bbox_area (s : square) : R :=
  bbox_area match square_bbox s with
            | Some b => b
            | None => ((0, 0), (0, 0))
            end.

(** The closed polyline drawn from the bounding box chosen. *)
Definition roof_polyline (bbox : point * point) (height_ratio overhang : R)
           (layer : option string) : call :=
  let '((minx, miny), (maxx, maxy)) := bbox in
  let h := maxy - miny in
  let apex_h := h * height_ratio in
  let x_left := minx - overhang in
  let x_right := maxx + overhang in
  let y_top := maxy in
  let x_mid := (minx + maxx) / 2 in
  let apex := (x_mid, y_top + apex_h) in
  let pts := [(x_left, y_top); (x_right, y_top); apex; (x_left, y_top)] in
  draw_polyline pts layer true.

(** The fallback of [draw_triangle_roof_over_largest_square]:
    [find_squares(layer=layer_source, include_lines=True)], every other
    argument at its default, and the square of largest bounding box.  The
    result of [find_squares] is always [ok], so the exit
    ["find_squares_failed"] is never taken. *)
Definition roof_fallback (ms : list entity) (layer_source : option string)
  : res (result (point * point)) :=
  sqs <- find_squares _ANG_TOL_DEG _REL_LEN_TOL _MIN_SIDE 2000 false
                      ms layer_source true _POS_TOL ;;
  match sqs with
  | [] => Ret (NotOk "no_squares")
  | s0 :: rest =>
      let best := py_max_by square_bbox_area s0 rest in
      match square_bbox best with
      | Some bbox => Ret (Ok bbox)
      | None => Ret (NotOk "no_bbox")
      end
  end.

Definition draw_triangle_roof_over_largest_square (ms : list entity)
           (layer_source layer_result : option string)
           (height_ratio overhang : R) : res (result unit * list call) :=
  let bbox :=
    match pick_largest_closed_polyline ms layer_source with
    | Ok p => pl_bbox p
    | NotOk _ => None
    end in
  chosen <- match bbox with
            | Some b => Ret (Ok b)
            | None => roof_fallback ms layer_source
            end ;;
  match chosen with
  | NotOk reason => Ret (NotOk reason, [])
  | Ok b =>
      Ret (Ok tt,
           [roof_polyline b height_ratio overhang
                          (or_str layer_result layer_source)])
  end.

(** ** Inscribing a circle in each square *)



(** * Part II: definitions the statements use *)

(** ** The centroid as the specification words it *)

Fixpoint Rsum (l : list R) : R :=
  match l with
  | [] => 0
  | x :: t => x + Rsum t
  end.

(** The arithmetic mean of the points.  Of no point there is no mean; the
    quotient [0 / 0] is [0] in [R], which is also what the code returns for
    the empty list ([0.0 / max(1, 0)]). *)
Definition arithmetic_mean (pts : list point) : point :=
  (Rsum (map fst pts) / INR (length pts), Rsum (map snd pts) / INR (length pts)).

(** The edges of the closed polygon: each vertex with its successor, the last
    with the first. *)
Definition polygon_edges (pts : list point) : list (point * point) :=
  match pts with
  | [] => []
  | p :: rest => combine pts (rest ++ [p])
  end.

(** The shoelace sum, and the signed area it is twice of. *)
Definition shoelace (pts : list point) : R :=
  Rsum (map cross (polygon_edges pts)).

Definition signed_area (pts : list point) : R := shoelace pts / 2.

(** The area-weighted centroid: [Cx = sum (x_i + x_i+1) * cross_i / (6 A)],
    and likewise [Cy]. *)
Definition area_weighted_centroid (pts : list point) : point :=
  let wx := fun e : point * point => (fst (fst e) + fst (snd e)) * cross e in
  let wy := fun e : point * point => (snd (fst e) + snd (snd e)) * cross e in
  (Rsum (map wx (polygon_edges pts)) / (6 * signed_area pts),
   Rsum (map wy (polygon_edges pts)) / (6 * signed_area pts)).

Definition spec_centroid (pts : list point) : point :=
  if (length pts <? 3)%nat then arithmetic_mean pts
  else if Rleb (Rabs (signed_area pts)) _POS_TOL then arithmetic_mean pts
  else area_weighted_centroid pts.

(** ** Detection without the cap *)

Section Uncapped.
Variables (ang_tol_deg rel_len_tol min_side : R).
Variable allow_rectangles : bool.

(** The entries of all qualifying candidates, in order, with no cap. *)
Fixpoint all_squares (cands : list candidate) : res (list square) :=
  match cands with
  | [] => Ret []
  | (src, hs, vs, bbox) :: rest =>
      q <- qualifies ang_tol_deg rel_len_tol min_side allow_rectangles vs ;;
      if q then
        sq <- make_square src hs vs bbox ;;
        more <- all_squares rest ;;
        Ret (sq :: more)
      else all_squares rest
  end.
End Uncapped.

(** How many more entries a loop takes when it starts with [have] of
    them: the cap is tested only after an entry is appended, so at least
    one. *)
Definition room (max_count : Z) (have : nat) : nat :=
  Z.to_nat (Z.max 1 (max_count - Z.of_nat have)).

(** ** Axis-aligned squares and how a polyline lists them *)

(** The rays from [b] to [a] and from [b] to [c] are perpendicular. *)
Definition perpendicular (a b c : point) : Prop :=
  (fst a - fst b) * (fst c - fst b) + (snd a - snd b) * (snd c - snd b) = 0.

(** The square with lower-left corner [(x, y)] and side [s], listed
    counter-clockwise from that corner. *)
Definition axis_square (x y s : R) : list point :=
  [(x, y); (x + s, y); (x + s, y + s); (x, y + s)].

(** The list started [k] places further on. *)
Definition rotate {A : Type} (k : nat) (l : list A) : list A :=
  skipn k l ++ firstn k l.

(** A listing of the square: either winding, any first vertex. *)
Definition listing (x y s : R) (clockwise : bool) (k : nat) : list point :=
  rotate k (if clockwise then rev (axis_square x y s) else axis_square x y s).

(** The flat [Coordinates] array of a 2D and of a 3D polyline. *)
Definition coords2 (vs : list point) : list R :=
  flat_map (fun p : point => [fst p; snd p]) vs.

Definition coords3 (z : R) (vs : list point) : list R :=
  flat_map (fun p : point => [fst p; snd p; z]) vs.

(** ** The square inscribed in a circle *)

(** The circles the loop acts on: centre and radius of every [Circle] that
    passes the layer filter, in drawing order. *)
Definition circles_on (layer_filter : option string) (ms : list entity)
  : list (R * R * R * R) :=
  flat_map (fun e => match e with
                     | Circle _ _ c r =>
                         if on_layer layer_filter e then [(c, r)] else []
                     | _ => []
                     end) ms.

(** The rectangle drawn for one circle. *)
Definition inscribed_square (layer_name : string) (cr : R * R * R * R) : call :=
  let '(c, r) := cr in
  let half := r / sqrt 2 in
  draw_rectangle (fst (fst c) - half, snd (fst c) - half)
                 (half * 2) (half * 2) (Some layer_name).

(** ** Sample drawings *)

(** The square of diagonal 10 standing on a corner, and the axis-aligned
    square of side 8. *)
Definition diamond : entity :=
  Polyline "D1" "0" true (coords2 [(5, 0); (10, 5); (5, 10); (0, 5)]).

Definition square8 : entity :=
  Polyline "S8" "0" true (coords2 (axis_square 0 0 8)).

(** A closed 3D polyline through three points. *)
Definition triangle : entity :=
  Polyline "T3" "0" true (coords3 0 [(0, 0); (4, 0); (0, 3)]).

(** ** What every reported square satisfies *)


(** ** The circles of a drawing *)


(** * Part III: properties *)

(** ** Facts about the runtime pieces *)

Lemma Rleb_true (x y : R) : Rleb x y = true <-> x <= y.
Proof. unfold Rleb. destruct (Rle_dec x y); split; intros; try discriminate; tauto. Qed.

Lemma Rleb_false (x y : R) : Rleb x y = false <-> y < x.
Proof.
  unfold Rleb. destruct (Rle_dec x y); split; intros;
    try discriminate; try lra; reflexivity.
Qed.

Lemma Rltb_true (x y : R) : Rltb x y = true <-> x < y.
Proof. unfold Rltb. destruct (Rlt_dec x y); split; intros; try discriminate; tauto. Qed.

Lemma Rltb_false (x y : R) : Rltb x y = false <-> y <= x.
Proof.
  unfold Rltb. destruct (Rlt_dec x y); split; intros;
    try discriminate; try lra; reflexivity.
Qed.

Lemma Reqb_true (x y : R) : Reqb x y = true <-> x = y.
Proof. unfold Reqb. destruct (Req_dec_T x y); split; intros; try discriminate; tauto. Qed.

Lemma Reqb_false (x y : R) : Reqb x y = false <-> x <> y.
Proof. unfold Reqb. destruct (Req_dec_T x y); split; intros; try discriminate; tauto. Qed.

Lemma Rabs_le_bounds (a b : R) : Rabs a <= b -> - b <= a <= b.
Proof. unfold Rabs. destruct (Rcase_abs a); lra. Qed.

Lemma py_div_ok (x y : R) : y <> 0 -> py_div x y = Ret (x / y).
Proof. intros H. unfold py_div. apply Reqb_false in H. now rewrite H. Qed.

Lemma py_div_zero (x : R) : py_div x 0 = Raise ZeroDivisionError.
Proof. unfold py_div. now rewrite (proj2 (Reqb_true 0 0) eq_refl). Qed.

Lemma py_or_nonzero (x d : R) : d <> 0 -> py_or x d <> 0.
Proof.
  intros Hd. unfold py_or. destruct (Reqb x 0) eqn:E; [exact Hd|].
  now apply Reqb_false.
Qed.

Lemma py_acos_ok (x : R) : -1 <= x <= 1 -> py_acos x = Ret (acos x).
Proof.
  intros [H1 H2]. unfold py_acos.
  apply Rleb_true in H1, H2. now rewrite H1, H2.
Qed.

Lemma clamp_range (x : R) : -1 <= Rmax (-1) (Rmin 1 x) <= 1.
Proof.
  unfold Rmax, Rmin.
  destruct (Rle_dec 1 x); destruct (Rle_dec (-1) _); lra.
Qed.

Lemma degrees_range (t : R) : 0 <= t <= PI -> 0 <= degrees t <= 180.
Proof.
  intros [H0 H1]. unfold degrees. pose proof PI_RGT_0 as Hpi.
  assert (Hq : 0 < 180 / PI) by (apply Rdiv_lt_0_compat; lra).
  split.
  - apply Rmult_le_pos; lra.
  - replace 180 with (PI * (180 / PI)) at 2 by (field; lra).
    apply Rmult_le_compat_r; lra.
Qed.

(** ** The near-equality predicate *)

(** [_near] raises exactly when both numbers are zero and the absolute
    tolerance is negative: only then is the divisor [max(|a|,|b|,abs_tol)]
    reached and zero. *)
Lemma _near_raises_iff (a b rel_tol abs_tol : R) :
  _near a b rel_tol abs_tol = Raise ZeroDivisionError <->
  a = 0 /\ b = 0 /\ abs_tol < 0.
Proof.
  unfold _near.
  destruct (Rleb (Rabs (a - b)) abs_tol) eqn:E.
  - split; [discriminate|]. intros (-> & -> & H).
    apply Rleb_true in E. rewrite Rminus_diag, Rabs_R0 in E. lra.
  - apply Rleb_false in E. cbv zeta. unfold py_div.
    destruct (Reqb _ 0) eqn:Em; cbn.
    + apply Reqb_true in Em. split; [intros _|reflexivity].
      pose proof (Rabs_pos a) as Ha0. pose proof (Rabs_pos b) as Hb0.
      pose proof (Rmax_l (Rmax (Rabs a) (Rabs b)) abs_tol) as Hm1.
      pose proof (Rmax_r (Rmax (Rabs a) (Rabs b)) abs_tol) as Hm2.
      pose proof (Rmax_l (Rabs a) (Rabs b)) as Hm3.
      pose proof (Rmax_r (Rabs a) (Rabs b)) as Hm4.
      assert (Ha : a = 0).
      { destruct (Req_dec a 0) as [|Hn]; [assumption|].
        apply Rabs_no_R0 in Hn. lra. }
      assert (Hb : b = 0).
      { destruct (Req_dec b 0) as [|Hn]; [assumption|].
        apply Rabs_no_R0 in Hn. lra. }
      subst. rewrite Rminus_diag, Rabs_R0 in E. repeat split; lra.
    + split; [discriminate|]. intros (-> & -> & H).
      apply Reqb_false in Em. exfalso. apply Em.
      rewrite Rabs_R0. unfold Rmax. repeat destruct (Rle_dec _ _); lra.
Qed.

Lemma _near_total (a b rel_tol abs_tol : R) :
  0 <= abs_tol -> exists r, _near a b rel_tol abs_tol = Ret r.
Proof.
  intros H. destruct (_near a b rel_tol abs_tol) as [r|e] eqn:E; [now exists r|].
  exfalso. assert (e = ZeroDivisionError) as ->.
  { unfold _near in E. destruct (Rleb _ abs_tol); [discriminate|].
    cbv zeta in E. unfold py_div in E. destruct (Reqb _ 0); cbn in E; congruence. }
  apply _near_raises_iff in E. lra.
Qed.

(** The answer [True] of [_near], with the quotient taken only where it
    exists. *)
Lemma near_true_guarded (a b rel_tol abs_tol : R) :
  _near a b rel_tol abs_tol = Ret true <->
  (Rabs (a - b) <= abs_tol \/
   (Rmax (Rmax (Rabs a) (Rabs b)) abs_tol <> 0 /\
    Rabs (a - b) / Rmax (Rmax (Rabs a) (Rabs b)) abs_tol <= rel_tol)).
Proof.
  unfold _near.
  destruct (Rleb (Rabs (a - b)) abs_tol) eqn:E.
  - apply Rleb_true in E. split; [now left|reflexivity].
  - apply Rleb_false in E. cbv zeta. unfold py_div.
    destruct (Reqb _ 0) eqn:Em; cbn.
    + apply Reqb_true in Em. split; [discriminate|].
      intros [H|[H _]]; [lra|contradiction].
    + apply Reqb_false in Em. split.
      * intros H. right. split; [assumption|]. apply Rleb_true. congruence.
      * intros [H|[_ H]]; [lra|]. apply Rleb_true in H. now rewrite H.
Qed.

(** C8.  [_near a b rel_tol abs_tol] returns [True] if and only if
    [|a-b| <= abs_tol], or the quotient [|a-b| / max(|a|,|b|,abs_tol)]
    exists (its divisor is not zero) and is at most [rel_tol].  The divisor
    is reached and zero only for [a = b = 0] with a negative [abs_tol], where
    the code raises [ZeroDivisionError]; on every other input the guard on
    the divisor can be left out. *)
Theorem near_true_iff (a b rel_tol abs_tol : R) :
  (_near a b rel_tol abs_tol = Ret true <->
   (Rabs (a - b) <= abs_tol \/
    (Rmax (Rmax (Rabs a) (Rabs b)) abs_tol <> 0 /\
     Rabs (a - b) / Rmax (Rmax (Rabs a) (Rabs b)) abs_tol <= rel_tol))) /\
  (~ (a = 0 /\ b = 0 /\ abs_tol < 0) ->
   (_near a b rel_tol abs_tol = Ret true <->
    (Rabs (a - b) <= abs_tol \/
     Rabs (a - b) / Rmax (Rmax (Rabs a) (Rabs b)) abs_tol <= rel_tol))).
Proof.
  split; [apply near_true_guarded|].
  intros Hret. rewrite near_true_guarded. split.
  - intros [H|[_ H]]; [now left|now right].
  - intros [H|H]; [now left|].
    destruct (Rle_dec (Rabs (a - b)) abs_tol) as [Hle|Hgt]; [now left|].
    right. split; [|exact H]. intros Hm.
    apply Hret. apply (proj1 (_near_raises_iff a b rel_tol abs_tol)).
    unfold _near.
    rewrite (proj2 (Rleb_false _ _)) by lra. cbv zeta.
    rewrite Hm, py_div_zero. reflexivity.
Qed.

(** The default tolerances on two side lengths two percent apart. *)
Lemma near_true_iff_witness :
  _near 100 102 _REL_LEN_TOL _POS_TOL = Ret true <->
  (Rabs (100 - 102) <= _POS_TOL \/
   Rabs (100 - 102) / Rmax (Rmax (Rabs 100) (Rabs 102)) _POS_TOL
   <= _REL_LEN_TOL).
Proof.
  apply (proj2 (near_true_iff 100 102 _REL_LEN_TOL _POS_TOL)).
  intros (H & _ & _). lra.
Defined.

(** ** The vertex angle *)

(** The norms are replaced by [1.0] when zero, and the dot product is
    clamped, so every step of [_angle_deg] returns: the result is the
    [acos], in degrees, of a number in [-1, 1]. *)
Lemma angle_deg_value (a b c : point) :
  exists d, -1 <= d <= 1 /\ _angle_deg a b c = Ret (degrees (acos d)).
Proof.
  unfold _angle_deg. cbv zeta. cbn [fst snd].
  set (n1 := py_or _ 1). set (n2 := py_or _ 1).
  assert (Hn1 : n1 <> 0) by (apply py_or_nonzero; lra).
  assert (Hn2 : n2 <> 0) by (apply py_or_nonzero; lra).
  rewrite !(py_div_ok _ n1 Hn1), !(py_div_ok _ n2 Hn2). cbn [bind].
  rewrite py_acos_ok by apply clamp_range. cbn [bind].
  eexists. split; [apply clamp_range|reflexivity].
Qed.

(** C9.  [_angle_deg] returns on every triple of points, zero-length rays
    included: the norms are replaced by [1.0] when zero, so no division
    raises, the dot product is clamped to [-1, 1], so [math.acos] does not
    raise, and the result is an angle in [0, 180] degrees. *)
Theorem angle_deg_total (a b c : point) :
  exists t, _angle_deg a b c = Ret t /\ 0 <= t <= 180.
Proof.
  destruct (angle_deg_value a b c) as (d & Hd & Hret).
  exists (degrees (acos d)). split; [exact Hret|].
  apply degrees_range. apply acos_bound.
Qed.

(** ** The centroid: the loops compute the sums of the formula *)

Lemma fold_left_Rplus (l : list R) (a : R) : fold_left Rplus l a = a + Rsum l.
Proof.
  revert a. induction l as [|x t IH]; intros a; cbn.
  - lra.
  - rewrite IH. lra.
Qed.

Lemma py_sum_Rsum (l : list R) : py_sum l = Rsum l.
Proof. unfold py_sum. rewrite fold_left_Rplus. lra. Qed.

Lemma successor_index (p : point) (rest : list point) (i : nat) :
  (i < S (length rest))%nat ->
  nth_pt (p :: rest) ((i + 1) mod (S (length rest))) = nth i (rest ++ [p]) (0, 0).
Proof.
  intros Hi. unfold nth_pt.
  destruct (Nat.eq_dec (i + 1) (S (length rest))) as [E|E].
  - rewrite E, Nat.Div0.mod_same. cbn [nth].
    assert (i = length rest) as -> by lia.
    now rewrite nth_middle.
  - rewrite Nat.mod_small by lia.
    replace (i + 1)%nat with (S i) by lia. cbn [nth].
    rewrite app_nth1 by lia. reflexivity.
Qed.

Lemma edges_by_index (pts : list point) :
  map (edge_at pts) (seq 0 (length pts)) = polygon_edges pts.
Proof.
  destruct pts as [|p rest]; [reflexivity|].
  apply (nth_ext _ _ ((0, 0), (0, 0)) ((0, 0), (0, 0))).
  - unfold polygon_edges. rewrite length_map, length_seq, length_combine.
    cbn [length]. rewrite length_app. cbn [length].
    rewrite Nat.add_1_r. now rewrite Nat.min_id.
  - intros i Hi. rewrite length_map, length_seq in Hi.
    rewrite (nth_indep _ _ (edge_at (p :: rest) 0%nat))
      by (now rewrite length_map, length_seq).
    rewrite map_nth, seq_nth by assumption. cbn [Nat.add].
    unfold polygon_edges. rewrite combine_nth
      by (cbn [length]; rewrite length_app; cbn [length]; now rewrite Nat.add_1_r).
    unfold edge_at. cbn [length] in *. rewrite successor_index by assumption.
    reflexivity.
Qed.

Lemma centroid_loop (pts : list point) (l : list nat) (a b c : R) :
  fold_left (centroid_step pts) l (a, b, c) =
  (a + Rsum (map cross (map (edge_at pts) l)),
   b + Rsum (map (fun e : point * point => (fst (fst e) + fst (snd e)) * cross e)
               (map (edge_at pts) l)),
   c + Rsum (map (fun e : point * point => (snd (fst e) + snd (snd e)) * cross e)
               (map (edge_at pts) l))).
Proof.
  revert a b c. induction l as [|i t IH]; intros a b c; cbn [fold_left map Rsum].
  - f_equal; [f_equal|]; lra.
  - unfold centroid_step at 2.
    destruct (edge_at pts i) as [[x1 y1] [x2 y2]] eqn:E.
    rewrite IH. cbn [cross fst snd]. f_equal; [f_equal|]; lra.
Qed.

Lemma area_loop (pts : list point) (l : list nat) (a : R) :
  fold_left (fun s i => s + cross (edge_at pts i)) l a =
  a + Rsum (map cross (map (edge_at pts) l)).
Proof.
  revert a. induction l as [|i t IH]; intros a; cbn [fold_left map Rsum].
  - lra.
  - rewrite IH. lra.
Qed.

(** [_poly_area_xy] is the absolute value of the signed area. *)
Lemma poly_area_signed (pts : list point) :
  (3 <= length pts)%nat -> _poly_area_xy pts = Rabs (signed_area pts).
Proof.
  intros Hn. unfold _poly_area_xy.
  destruct (Nat.ltb_spec (length pts) 3); [lia|].
  cbv zeta. rewrite area_loop, edges_by_index, Rplus_0_l.
  unfold signed_area, shoelace, Rdiv.
  rewrite Rabs_mult, (Rabs_pos_eq (/ 2)); lra.
Qed.

Lemma INR_max1_nonzero (n : nat) : INR (Nat.max 1 n) <> 0.
Proof. apply not_0_INR. lia. Qed.

(** Fewer than three points: the sums divided by [max(1, n)]. *)
Lemma centroid_few (pts : list point) :
  (length pts < 3)%nat -> _centroid pts = Ret (arithmetic_mean pts).
Proof.
  intros Hn. unfold _centroid. cbv zeta.
  rewrite (proj2 (Nat.ltb_lt _ _) Hn).
  rewrite !py_div_ok by apply INR_max1_nonzero. cbn [bind].
  rewrite !py_sum_Rsum. unfold arithmetic_mean.
  destruct pts as [|p rest]; cbn [length map Rsum].
  - unfold Rdiv. now rewrite !Rmult_0_l.
  - now rewrite Nat.max_r by lia.
Qed.

(** Three points or more: the loop, then the test on the signed area. *)
Lemma centroid_polygon (pts : list point) :
  (3 <= length pts)%nat ->
  _centroid pts =
  Ret (if Rleb (Rabs (signed_area pts)) _POS_TOL then arithmetic_mean pts
       else area_weighted_centroid pts).
Proof.
  intros Hn. unfold _centroid. cbv zeta.
  rewrite (proj2 (Nat.ltb_ge _ _) Hn).
  rewrite centroid_loop, edges_by_index, !Rplus_0_l.
  rewrite py_div_ok by lra. cbn [bind].
  fold (shoelace pts). fold (signed_area pts).
  assert (Hlen : INR (length pts) <> 0) by (apply not_0_INR; lia).
  destruct (Rleb (Rabs (signed_area pts)) _POS_TOL) eqn:E.
  - rewrite !py_div_ok by assumption. cbn [bind].
    now rewrite !py_sum_Rsum.
  - apply Rleb_false in E.
    assert (HA : 6 * signed_area pts <> 0).
    { intros H0. assert (signed_area pts = 0) as H1 by lra.
      rewrite H1, Rabs_R0 in E. unfold _POS_TOL in E. lra. }
    rewrite !py_div_ok by assumption. cbn [bind]. reflexivity.
Qed.

Lemma centroid_returns (pts : list point) : exists c, _centroid pts = Ret c.
Proof.
  destruct (Nat.lt_ge_cases (length pts) 3) as [Hn|Hn].
  - rewrite centroid_few by assumption. now eexists.
  - rewrite centroid_polygon by assumption. now eexists.
Qed.

(** C6.  [_centroid] returns the arithmetic mean of the points when there
    are fewer than 3; otherwise the area-weighted polygon centroid, except
    that when the absolute value of the signed area is at most the positional
    tolerance it returns the arithmetic mean of the vertices.  It never
    raises: every divisor is non-zero. *)
Theorem centroid_refines_spec (pts : list point) :
  _centroid pts = Ret (spec_centroid pts).
Proof.
  unfold spec_centroid.
  destruct (Nat.ltb_spec (length pts) 3) as [Hfew|Hmany].
  - now apply centroid_few.
  - now apply centroid_polygon.
Qed.

(** ** Sorting permutes *)

Section SortingFacts.
Context {A K : Type}.
Variable ltk : K -> K -> bool.
Variable key : A -> K.

Lemma insert_by_perm (x : A) (l : list A) :
  Permutation (x :: l) (insert_by ltk key x l).
Proof.
  induction l as [|y t IH]; cbn.
  - reflexivity.
  - destruct (ltk (key y) (key x)).
    + rewrite perm_swap. now apply perm_skip.
    + reflexivity.
Qed.

Lemma py_sort_perm (l : list A) : Permutation l (py_sort ltk key l).
Proof.
  induction l as [|x t IH]; cbn.
  - constructor.
  - rewrite <- insert_by_perm. now apply perm_skip.
Qed.

Lemma py_sort_length (l : list A) : length (py_sort ltk key l) = length l.
Proof. symmetry. apply Permutation_length, py_sort_perm. Qed.
End SortingFacts.

(** ** The loop re-ordering step *)

Lemma order_steps (n : nat) (ordered rest : list point) (current : point) :
  length rest = n ->
  exists ordered' current',
    repeatM n order_step (ordered, current, rest) = Ret (ordered', current', []) /\
    Permutation (ordered ++ rest) ordered'.
Proof.
  revert ordered rest current.
  induction n as [|n IH]; intros ordered rest current Hlen.
  - destruct rest; [|discriminate]. exists ordered, current. cbn.
    split; [reflexivity|]. now rewrite app_nil_r.
  - cbn [repeatM]. unfold order_step at 1.
    pose proof (py_sort_perm Rltb (fun p => _dist current p) rest) as Hp.
    pose proof (py_sort_length Rltb (fun p => _dist current p) rest) as Hl.
    destruct (py_sort Rltb (fun p => _dist current p) rest) as [|nxt rest'].
    + cbn in Hl. lia.
    + cbn [py_pop0 bind].
      destruct (IH (ordered ++ [nxt]) rest' nxt) as (o' & c' & Hrun & Hperm).
      { cbn in Hl. lia. }
      exists o', c'. split; [exact Hrun|].
      rewrite <- Hperm, <- app_assoc. cbn [app].
      now apply Permutation_app_head.
Qed.

(** C10.  On a list of exactly 4 points [_order_loop] returns a permutation
    of it (nothing added, dropped or duplicated, and no [IndexError] from
    [pop(0)]); on a list of any other length it returns the list itself. *)
Theorem order_loop_permutation (points : list point) :
  (length points = 4%nat ->
   exists ordered, _order_loop points = Ret ordered /\ Permutation points ordered) /\
  (length points <> 4%nat -> _order_loop points = Ret points).
Proof.
  unfold _order_loop. split; intros Hlen.
  - rewrite (proj2 (Nat.eqb_eq _ _) Hlen). cbn [negb].
    pose proof (py_sort_perm lex_ltb (fun p : point => (fst p, snd p)) points) as Hp.
    pose proof (py_sort_length lex_ltb (fun p : point => (fst p, snd p)) points) as Hl.
    destruct (py_sort lex_ltb _ points) as [|start rest].
    + cbn in Hl. lia.
    + cbn [py_pop0 bind].
      destruct (order_steps 3 [start] rest start) as (o & c & Hrun & Hperm).
      { cbn in Hl. lia. }
      rewrite Hrun. cbn [bind]. exists o. split; [reflexivity|].
      now rewrite Hp.
  - rewrite (proj2 (Nat.eqb_neq _ _) Hlen). reflexivity.
Qed.

(** The re-ordering of the unit square listed crosswise. *)
Lemma order_loop_permutation_witness :
  exists ordered,
    _order_loop [(0, 0); (1, 1); (1, 0); (0, 1)] = Ret ordered /\
    Permutation [(0, 0); (1, 1); (1, 0); (0, 1)] ordered.
Proof.
  apply (proj1 (order_loop_permutation [(0, 0); (1, 1); (1, 0); (0, 1)])).
  reflexivity.
Defined.

(** ** Quantization of segment endpoints *)

Lemma py_round_near (x : R) : Rabs (IZR (py_round x) - x) <= 1 / 2.
Proof.
  unfold py_round. cbv zeta.
  pose proof (Zfloor_bound x) as [Hlo Hhi].
  destruct (Rltb (x - IZR (Zfloor x)) (1 / 2)) eqn:E1.
  - apply Rltb_true in E1. apply Rabs_le. lra.
  - apply Rltb_false in E1.
    destruct (Rltb (1 / 2) (x - IZR (Zfloor x))) eqn:E2.
    + apply Rltb_true in E2. rewrite plus_IZR. apply Rabs_le. lra.
    + apply Rltb_false in E2.
      destruct (Z.even (Zfloor x)); [|rewrite plus_IZR]; apply Rabs_le; lra.
Qed.

Lemma py_round_of_floor (x : R) (z : Z) :
  IZR z <= x < IZR z + 1 / 2 -> py_round x = z.
Proof.
  intros [Hlo Hhi]. unfold py_round. cbv zeta.
  assert (Zfloor x = z) as -> by (apply Zfloor_eq; lra).
  now rewrite (proj2 (Rltb_true _ _)) by lra.
Qed.

Lemma py_round_of_ceil (x : R) (z : Z) :
  IZR z + 1 / 2 < x < IZR z + 1 -> py_round x = (z + 1)%Z.
Proof.
  intros [Hlo Hhi]. unfold py_round. cbv zeta.
  assert (Zfloor x = z) as -> by (apply Zfloor_eq; lra).
  rewrite (proj2 (Rltb_false _ _)) by lra.
  now rewrite (proj2 (Rltb_true _ _)) by lra.
Qed.

Lemma key_pt_ok (pos_tol : R) (p : point) :
  pos_tol <> 0 ->
  key_pt pos_tol p =
  Ret (IZR (py_round (fst p / pos_tol)) * pos_tol,
       IZR (py_round (snd p / pos_tol)) * pos_tol).
Proof. intros H. unfold key_pt. now rewrite !py_div_ok by assumption. Qed.


Lemma same_round_close (tol a b : R) :
  0 < tol ->
  py_round (a / tol) = py_round (b / tol) -> Rabs (a - b) <= tol.
Proof.
  intros Htol E.
  pose proof (py_round_near (a / tol)) as Ha.
  pose proof (py_round_near (b / tol)) as Hb.
  rewrite E in Ha. apply Rabs_le_bounds in Ha, Hb.
  assert (Hq : -1 <= a / tol - b / tol <= 1) by lra.
  assert (Hd : a - b = (a / tol - b / tol) * tol) by (field; lra).
  rewrite Hd. apply Rabs_le. split; nra.
Qed.

(** C2, as the code has it.  With a positive tolerance, two endpoints get
    the same graph node exactly when, on each axis, their coordinates divided
    by the tolerance round to the same integer; endpoints that share a node
    differ by at most the tolerance on each axis. *)
Theorem key_pt_same_node (pos_tol : R) (p q : point) :
  0 < pos_tol ->
  (key_pt pos_tol p = key_pt pos_tol q <->
   py_round (fst p / pos_tol) = py_round (fst q / pos_tol) /\
   py_round (snd p / pos_tol) = py_round (snd q / pos_tol)) /\
  (key_pt pos_tol p = key_pt pos_tol q ->
   Rabs (fst p - fst q) <= pos_tol /\ Rabs (snd p - snd q) <= pos_tol).
Proof.
  intros Htol.
  assert (Hiff : key_pt pos_tol p = key_pt pos_tol q <->
                 py_round (fst p / pos_tol) = py_round (fst q / pos_tol) /\
                 py_round (snd p / pos_tol) = py_round (snd q / pos_tol)).
  { rewrite !key_pt_ok by lra. split.
    - intros H. injection H as Hx Hy.
      apply Rmult_eq_reg_r in Hx, Hy; try lra.
      split; now apply eq_IZR.
    - intros [-> ->]. reflexivity. }
  split; [exact Hiff|].
  intros H. apply Hiff in H as [Hx Hy].
  split; now apply same_round_close.
Qed.

Lemma key_pt_same_node_witness :
  (key_pt _POS_TOL (1 / 10000000, 0) = key_pt _POS_TOL (3 / 10000000, 0) <->
   py_round (1 / 10000000 / _POS_TOL) = py_round (3 / 10000000 / _POS_TOL) /\
   py_round (0 / _POS_TOL) = py_round (0 / _POS_TOL)) /\
  (key_pt _POS_TOL (1 / 10000000, 0) = key_pt _POS_TOL (3 / 10000000, 0) ->
   Rabs (1 / 10000000 - 3 / 10000000) <= _POS_TOL /\ Rabs (0 - 0) <= _POS_TOL).
Proof.
  apply (key_pt_same_node _POS_TOL (1 / 10000000, 0) (3 / 10000000, 0)).
  unfold _POS_TOL. lra.
Defined.

Lemma hypot_0_r (x : R) : hypot x 0 = Rabs x.
Proof.
  unfold hypot. replace (x * x + 0 * 0) with (Rsqr x) by (unfold Rsqr; ring).
  apply sqrt_Rsqr_abs.
Qed.

Lemma hypot_0_l (y : R) : hypot 0 y = Rabs y.
Proof.
  unfold hypot. replace (0 * 0 + y * y) with (Rsqr y) by (unfold Rsqr; ring).
  apply sqrt_Rsqr_abs.
Qed.

(** C2, as stated, fails: with the default tolerance [1e-6] the endpoints
    [(4e-7, 0)] and [(6e-7, 0)] are [2e-7] apart, within the tolerance, yet
    [0.4] rounds to [0] and [0.6] to [1], so they get the nodes [(0, 0)] and
    [(1e-6, 0)]. *)
Lemma key_pt_splits_close_endpoints :
  _dist (4 / 10000000, 0) (6 / 10000000, 0) <= _POS_TOL /\
  key_pt _POS_TOL (4 / 10000000, 0) = Ret (0, 0) /\
  key_pt _POS_TOL (6 / 10000000, 0) = Ret (_POS_TOL, 0) /\
  key_pt _POS_TOL (4 / 10000000, 0) <> key_pt _POS_TOL (6 / 10000000, 0).
Proof.
  assert (Htol : _POS_TOL <> 0) by (unfold _POS_TOL; lra).
  assert (K4 : key_pt _POS_TOL (4 / 10000000, 0) = Ret (0, 0)).
  { rewrite key_pt_ok by assumption. cbn [fst snd].
    rewrite (py_round_of_floor (4 / 10000000 / _POS_TOL) 0)
      by (unfold _POS_TOL; split; [lra|field_simplify; lra]).
    rewrite (py_round_of_floor (0 / _POS_TOL) 0)
      by (unfold _POS_TOL; lra).
    f_equal. f_equal; ring. }
  assert (K6 : key_pt _POS_TOL (6 / 10000000, 0) = Ret (_POS_TOL, 0)).
  { rewrite key_pt_ok by assumption. cbn [fst snd].
    rewrite (py_round_of_ceil (6 / 10000000 / _POS_TOL) 0)
      by (unfold _POS_TOL; split; field_simplify; lra).
    rewrite (py_round_of_floor (0 / _POS_TOL) 0)
      by (unfold _POS_TOL; lra).
    f_equal. f_equal; cbn [Z.add]; ring. }
  repeat split; try assumption.
  - unfold _dist. cbn [fst snd]. rewrite Rminus_diag, hypot_0_r.
    unfold _POS_TOL. apply Rabs_le. lra.
  - rewrite K4, K6. intros H. injection H as H. unfold _POS_TOL in H. lra.
Qed.

(** ** The classifier and the entry builder never raise *)

Lemma POS_TOL_pos : 0 < _POS_TOL.
Proof. unfold _POS_TOL. lra. Qed.

Lemma anyM_total {A : Type} (f : A -> res bool) (l : list A) :
  (forall x, exists b, f x = Ret b) -> exists b, anyM f l = Ret b.
Proof.
  intros Hf. induction l as [|x t IH]; cbn.
  - now exists false.
  - destruct (Hf x) as [b ->]. cbn. destruct b; [now exists true|exact IH].
Qed.

Lemma mapM_total {A B : Type} (f : A -> res B) (l : list A) :
  (forall x, exists y, f x = Ret y) -> exists ys, mapM f l = Ret ys.
Proof.
  intros Hf. induction l as [|x t IH]; cbn.
  - now exists [].
  - destruct (Hf x) as [y ->]. destruct IH as [ys ->]. cbn. now exists (y :: ys).
Qed.

Lemma near_default_total (a b rel_tol : R) :
  exists r, _near a b rel_tol _POS_TOL = Ret r.
Proof. apply _near_total. pose proof POS_TOL_pos. lra. Qed.

Lemma loop_angles_total (v0 v1 v2 v3 : point) :
  exists angs, loop_angles v0 v1 v2 v3 = Ret angs.
Proof.
  unfold loop_angles. apply mapM_total. intros [[a b] c].
  destruct (angle_deg_value a b c) as (d & _ & ->). now eexists.
Qed.

Lemma is_square_total (vs : list point) (ang rel mins : R) :
  exists b, _is_square_vertices vs ang rel mins = Ret b.
Proof.
  unfold _is_square_vertices.
  destruct vs as [|v0 [|v1 [|v2 [|v3 [|v4 t]]]]]; try (now exists false).
  cbv zeta. destruct (existsb _ _); [now exists false|].
  match goal with |- context [anyM ?f ?l] =>
    destruct (anyM_total f l) as [u ->] end.
  { intros s. destruct (near_default_total s
      (py_sum [_dist v0 v1; _dist v1 v2; _dist v2 v3; _dist v3 v0] / 4) rel)
      as [r ->]. cbn. now eexists. }
  cbn [bind]. destruct u; [now exists false|].
  destruct (loop_angles_total v0 v1 v2 v3) as [angs ->]. cbn [bind].
  destruct (existsb _ angs); now eexists.
Qed.

Lemma is_rectangle_total (vs : list point) (ang rel mins : R) :
  exists b, _is_rectangle_vertices vs ang rel mins = Ret b.
Proof.
  unfold _is_rectangle_vertices.
  destruct vs as [|v0 [|v1 [|v2 [|v3 [|v4 t]]]]]; try (now exists false).
  cbv zeta. destruct (existsb _ _); [now exists false|].
  destruct (loop_angles_total v0 v1 v2 v3) as [angs ->]. cbn [bind].
  destruct (existsb _ angs); [now exists false|].
  destruct (near_default_total (_dist v0 v1) (_dist v2 v3) rel) as [r ->].
  cbn [bind]. destruct r; [apply near_default_total|now exists false].
Qed.

Lemma qualifies_total (ang rel mins : R) (rects : bool) (vs : list point) :
  exists b, qualifies ang rel mins rects vs = Ret b.
Proof.
  unfold qualifies. destruct (length vs =? 4)%nat; [|now exists false].
  destruct (is_square_total vs ang rel mins) as [b ->]. cbn [bind].
  destruct b; [now exists true|].
  destruct rects; [apply is_rectangle_total|now exists false].
Qed.

Lemma make_square_total (src : source_tag) (hs : list string)
      (vs : list point) (bbox : option (point * point)) :
  exists sq, make_square src hs vs bbox = Ret sq /\ sq_source sq = src.
Proof.
  unfold make_square. destruct (centroid_returns vs) as [c ->]. cbn [bind].
  eexists. split; reflexivity.
Qed.

(** ** What the capped loops return *)

Section Capped.
Variables (ang_tol_deg rel_len_tol min_side : R).
Variable allow_rectangles : bool.

Lemma all_squares_total (cands : list candidate) :
  exists all,
    all_squares ang_tol_deg rel_len_tol min_side allow_rectangles cands
    = Ret all.
Proof.
  induction cands as [|[[[src hs] vs] bbox] rest [all IH]]; cbn.
  - now exists [].
  - destruct (qualifies_total ang_tol_deg rel_len_tol min_side
                allow_rectangles vs) as [q ->]. cbn [bind].
    destruct q; [|now exists all].
    destruct (make_square_total src hs vs bbox) as (sq & -> & _).
    rewrite IH. cbn. now exists (sq :: all).
Qed.

Lemma collect_capped (max_count : Z) (cands : list candidate) :
  forall (all acc : list square),
    all_squares ang_tol_deg rel_len_tol min_side allow_rectangles cands
    = Ret all ->
    collect ang_tol_deg rel_len_tol min_side max_count allow_rectangles
            cands acc =
    Ret ((room max_count (length acc) <=? length all)%nat,
         acc ++ firstn (room max_count (length acc)) all).
Proof.
  induction cands as [|[[[src hs] vs] bbox] rest IH]; intros all acc Hall.
  - cbn in Hall. injection Hall as <-. cbn [collect length].
    rewrite firstn_nil, app_nil_r.
    replace (room max_count (length acc) <=? 0)%nat with false; [reflexivity|].
    symmetry. apply Nat.leb_gt. unfold room. lia.
  - cbn [all_squares collect] in *.
    destruct (qualifies _ _ _ _ vs) as [q|e]; [|discriminate].
    cbn [bind] in *. destruct q; [|now apply IH].
    destruct (make_square src hs vs bbox) as [sq|e]; [|discriminate].
    cbn [bind] in *.
    destruct (all_squares _ _ _ _ rest) as [more|e]; [|discriminate].
    cbn [bind] in Hall. injection Hall as <-.
    rewrite length_app. cbn [length].
    destruct (Z.leb_spec max_count (Z.of_nat (length acc + 1))) as [Hk|Hk].
    + assert (room max_count (length acc) = 1%nat) as -> by (unfold room; lia).
      reflexivity.
    + rewrite (IH more (acc ++ [sq]) eq_refl).
      rewrite length_app. cbn [length].
      assert (room max_count (length acc) =
              S (room max_count (length acc + 1))) as ->
        by (unfold room; lia).
      cbn [firstn length]. rewrite <- app_assoc. reflexivity.
Qed.
End Capped.

(** ** Axis-aligned squares *)

Lemma dist_same_y (x1 x2 y : R) : _dist (x1, y) (x2, y) = Rabs (x1 - x2).
Proof. unfold _dist. cbn [fst snd]. rewrite Rminus_diag. apply hypot_0_r. Qed.

Lemma dist_same_x (x y1 y2 : R) : _dist (x, y1) (x, y2) = Rabs (y1 - y2).
Proof. unfold _dist. cbn [fst snd]. rewrite Rminus_diag. apply hypot_0_l. Qed.

Lemma dist_same_point (p : point) : _dist p p = 0.
Proof.
  destruct p as [x y]. rewrite dist_same_y, Rminus_diag. apply Rabs_R0.
Qed.

Lemma Rabs_step_back (x s : R) : 0 <= s -> Rabs (x - (x + s)) = s.
Proof.
  intros H. replace (x - (x + s)) with (- s) by ring.
  rewrite Rabs_Ropp. now apply Rabs_pos_eq.
Qed.

Lemma Rabs_step_forth (x s : R) : 0 <= s -> Rabs (x + s - x) = s.
Proof.
  intros H. replace (x + s - x) with s by ring. now apply Rabs_pos_eq.
Qed.

Lemma angle_deg_right (a b c : point) :
  perpendicular a b c -> _angle_deg a b c = Ret 90.
Proof.
  unfold perpendicular, _angle_deg. intros Hdot. cbv zeta. cbn [fst snd].
  set (n1 := py_or _ 1). set (n2 := py_or _ 1).
  assert (Hn1 : n1 <> 0) by (apply py_or_nonzero; lra).
  assert (Hn2 : n2 <> 0) by (apply py_or_nonzero; lra).
  rewrite !(py_div_ok _ n1 Hn1), !(py_div_ok _ n2 Hn2). cbn [bind].
  match goal with |- context [Rmin 1 ?d] =>
    replace d with (((fst a - fst b) * (fst c - fst b)
                     + (snd a - snd b) * (snd c - snd b)) / (n1 * n2))
      by (field; split; assumption)
  end.
  rewrite Hdot. unfold Rdiv at 1. rewrite Rmult_0_l.
  rewrite Rmin_right, Rmax_right by lra.
  rewrite py_acos_ok by lra. cbn [bind]. rewrite acos_0.
  f_equal. unfold degrees. pose proof PI_RGT_0. field. lra.
Qed.

Lemma near_same (a rel_tol : R) : _near a a rel_tol _POS_TOL = Ret true.
Proof.
  unfold _near. rewrite Rminus_diag, Rabs_R0.
  rewrite (proj2 (Rleb_true 0 _POS_TOL)); [reflexivity|].
  pose proof POS_TOL_pos. lra.
Qed.

(** A loop with four sides of one length [s] and four right angles passes
    the square test when [s] reaches the minimum side. *)
Lemma is_square_of_facts (v0 v1 v2 v3 : point) (s ang rel mins : R) :
  _dist v0 v1 = s -> _dist v1 v2 = s -> _dist v2 v3 = s -> _dist v3 v0 = s ->
  perpendicular v3 v0 v1 -> perpendicular v0 v1 v2 ->
  perpendicular v1 v2 v3 -> perpendicular v2 v3 v0 ->
  mins <= s -> 0 <= ang ->
  _is_square_vertices [v0; v1; v2; v3] ang rel mins = Ret true.
Proof.
  intros E0 E1 E2 E3 P0 P1 P2 P3 Hmin Hang.
  unfold _is_square_vertices. cbv zeta. rewrite E0, E1, E2, E3.
  cbn [existsb]. rewrite (proj2 (Rltb_false _ _) Hmin). cbn [orb].
  replace (py_sum _ / 4) with s
    by (unfold py_sum; cbn [fold_left]; field).
  cbn [anyM]. rewrite near_same. cbn [bind negb].
  unfold loop_angles. cbn [mapM].
  rewrite !angle_deg_right by assumption. cbn [bind existsb].
  rewrite Rminus_diag, Rabs_R0, (proj2 (Rltb_false _ _) Hang). reflexivity.
Qed.

Ltac listing_cases k clockwise :=
  destruct k as [|[|[|[|k]]]]; [| | | |lia];
  destruct clockwise;
  cbn [listing rotate axis_square rev app skipn firstn].

Lemma listing_is_square (x y s ang rel mins : R) (clockwise : bool) (k : nat) :
  (k < 4)%nat -> 0 < s -> mins <= s -> 0 <= ang ->
  _is_square_vertices (listing x y s clockwise k) ang rel mins = Ret true.
Proof.
  intros Hk Hs Hmin Hang.
  listing_cases k clockwise;
    apply (is_square_of_facts _ _ _ _ s); try assumption;
    rewrite ?dist_same_y, ?dist_same_x,
            ?Rabs_step_back, ?Rabs_step_forth by lra;
    try reflexivity;
    unfold perpendicular; cbn [fst snd]; ring.
Qed.

Lemma listing_length (x y s : R) (clockwise : bool) (k : nat) :
  (k < 4)%nat -> length (listing x y s clockwise k) = 4%nat.
Proof. intros Hk. listing_cases k clockwise; reflexivity. Qed.

Lemma listing_area (x y s : R) (clockwise : bool) (k : nat) :
  (k < 4)%nat -> _poly_area_xy (listing x y s clockwise k) = s * s.
Proof.
  intros Hk. pose proof (Rle_0_sqr s) as Hsq. unfold Rsqr in Hsq.
  listing_cases k clockwise;
    unfold _poly_area_xy; cbn [length Nat.ltb Nat.leb seq fold_left];
    unfold edge_at, nth_pt; cbn [length Nat.add Nat.sub Nat.modulo Nat.divmod fst snd nth cross];
    match goal with |- Rabs ?e * _ = _ =>
      first [ replace e with (2 * (s * s)) by ring
            | replace e with (- (2 * (s * s))) by ring; rewrite Rabs_Ropp ]
    end;
    rewrite Rabs_pos_eq by lra; lra.
Qed.

Lemma listing_ends_apart (x y s : R) (clockwise : bool) (k : nat) :
  (k < 4)%nat -> 0 <= s ->
  _dist (hd (0, 0) (listing x y s clockwise k))
        (last (listing x y s clockwise k) (0, 0)) = s.
Proof.
  intros Hk Hs.
  listing_cases k clockwise; cbn [hd last];
    rewrite ?dist_same_y, ?dist_same_x,
            ?Rabs_step_back, ?Rabs_step_forth by lra; reflexivity.
Qed.

Lemma listing_side (x y s : R) (clockwise : bool) (k : nat) :
  (k < 4)%nat -> 0 <= s ->
  Rmin (_dist (nth_pt (listing x y s clockwise k) 0)
              (nth_pt (listing x y s clockwise k) 1))
       (_dist (nth_pt (listing x y s clockwise k) 1)
              (nth_pt (listing x y s clockwise k) 2)) = s.
Proof.
  intros Hk Hs.
  listing_cases k clockwise; unfold nth_pt; cbn [nth];
    rewrite ?dist_same_y, ?dist_same_x,
            ?Rabs_step_back, ?Rabs_step_forth by lra;
    apply Rmin_left; lra.
Qed.

Lemma listing_centroid (x y s : R) (clockwise : bool) (k : nat) :
  (k < 4)%nat -> 0 < s ->
  _centroid (listing x y s clockwise k) = Ret (x + s / 2, y + s / 2).
Proof.
  intros Hk Hs.
  assert (Hss : 0 < s * s) by nra.
  rewrite centroid_polygon by (rewrite listing_length by assumption; lia).
  f_equal.
  listing_cases k clockwise;
    unfold arithmetic_mean, area_weighted_centroid,
           signed_area, shoelace, polygon_edges;
    cbn [length combine app map Rsum cross fst snd INR];
    match goal with |- context [Rleb ?a ?b] => destruct (Rleb a b) end;
    f_equal; field; nra.
Qed.

Lemma listing_four (x y s : R) (clockwise : bool) (k : nat) :
  (k < 4)%nat ->
  exists a b c d, listing x y s clockwise k = [a; b; c; d].
Proof. intros Hk. listing_cases k clockwise; repeat eexists. Qed.

(** A closed polyline of four vertices whose first and last are more than
    the tolerance apart is read back as listed, from a 2D or a 3D
    [Coordinates] array. *)
Lemma polyline_vertices_four (a b c d : point) (z : R) (coords : list R) :
  coords = coords2 [a; b; c; d] \/ coords = coords3 z [a; b; c; d] ->
  _POS_TOL < _dist a d ->
  _polyline_vertices_2d_ordered coords = [a; b; c; d].
Proof.
  destruct a as [ax ay], b as [bx by'], c as [cx cy], d as [dx dy].
  intros [-> | ->] Hfar;
    unfold _polyline_vertices_2d_ordered, _coords_from_polyline;
    cbn [coords2 coords3 flat_map app chunk3 chunk2 option_map fst snd map
         length Nat.leb hd last andb];
    rewrite (proj2 (Rleb_false _ _) Hfar); reflexivity.
Qed.

Lemma no_lines_no_loops (pos_tol : R) :
  _find_loops_from_lines [] pos_tol = Ret [].
Proof. reflexivity. Qed.

(** [find_squares] on a drawing that holds one closed polyline listing an
    axis-aligned square. *)
Lemma single_square_found
      (x y s z ang rel mins pos_tol : R) (max_count : Z)
      (rects include_lines clockwise : bool) (k : nat)
      (h l : string) (layer : option string) (coords : list R) :
  (k < 4)%nat -> _POS_TOL < s -> - s <= mins <= s -> 0 <= ang ->
  on_layer layer (Polyline h l true coords) = true ->
  coords = coords2 (listing x y s clockwise k) \/
  coords = coords3 z (listing x y s clockwise k) ->
  find_squares ang rel mins max_count rects
               [Polyline h l true coords] layer include_lines pos_tol =
  Ret [ {| sq_source := polyline;
           sq_handles := [h];
           sq_vertices := listing x y s clockwise k;
           sq_center := (x + s / 2, y + s / 2);
           sq_side := s;
           sq_bbox := _bbox_from_points_2d (listing x y s clockwise k) |} ].
Proof.
  intros Hk Hs Hmin Hang Hlayer Hcoords.
  pose proof POS_TOL_pos as Htol.
  assert (Hverts : _polyline_vertices_2d_ordered coords
                   = listing x y s clockwise k).
  { pose proof (listing_ends_apart x y s clockwise k Hk) as Hends.
    destruct (listing_four x y s clockwise k Hk) as (a & b & c & d & E).
    rewrite E in *. cbn [hd last] in Hends.
    apply (polyline_vertices_four a b c d z); [assumption|].
    rewrite Hends; lra. }
  unfold find_squares. cbn [find_closed_polylines].
  unfold closed_polyline_info. rewrite Hlayer, Hverts. cbn [negb].
  rewrite listing_length, listing_area by assumption.
  cbn [Nat.ltb Nat.leb].
  rewrite (proj2 (Rltb_false (s * s) (mins * mins))) by nra.
  cbn [map polyline_candidate pl_handle pl_vertices pl_bbox collect].
  unfold qualifies. rewrite listing_length by assumption. cbn [Nat.eqb].
  rewrite listing_is_square by (assumption || lra). cbn [bind].
  unfold make_square.
  rewrite listing_centroid, listing_side by (assumption || lra).
  cbn [bind app length].
  destruct (max_count <=? Z.of_nat 1)%Z; [reflexivity|].
  destruct include_lines; [|reflexivity].
  cbn [filter]. rewrite Hlayer. cbn [is_line andb].
  rewrite no_lines_no_loops. reflexivity.
Qed.

(** ** The loop assembler returns unless the tolerance is zero *)

Lemma foldM_total {S A : Type} (step : S -> A -> res S) (l : list A) :
  (forall st x, exists st', step st x = Ret st') ->
  forall st, exists st', foldM step l st = Ret st'.
Proof.
  intros Hstep. induction l as [|x t IH]; intros st; cbn.
  - now exists st.
  - destruct (Hstep st x) as [st' ->]. cbn. apply IH.
Qed.

Lemma order_loop_total (points : list point) :
  exists ordered, _order_loop points = Ret ordered.
Proof.
  unfold _order_loop.
  destruct (length points =? 4)%nat eqn:E; cbn [negb]; [|now exists points].
  apply Nat.eqb_eq in E.
  pose proof (py_sort_length lex_ltb (fun p : point => (fst p, snd p)) points) as Hl.
  destruct (py_sort lex_ltb _ points) as [|start rest]; [cbn in Hl; lia|].
  cbn [py_pop0 bind].
  destruct (order_steps 3 [start] rest start) as (o & c & -> & _).
  { cbn in Hl. lia. }
  cbn [bind]. now exists o.
Qed.

Lemma find_loops_total (lines_in : list entity) (pos_tol : R) :
  pos_tol <> 0 ->
  exists loops, _find_loops_from_lines lines_in pos_tol = Ret loops.
Proof.
  intros Htol. unfold _find_loops_from_lines. cbv zeta.
  unfold build_adjacency.
  match goal with |- context [foldM ?f ?l ?a] =>
    destruct (foldM_total f l) with (st := a) as [adj ->] end.
  { intros st s. rewrite !key_pt_ok by assumption. cbn. now eexists. }
  cbn [bind].
  match goal with |- context [foldM ?f ?l ?a] =>
    destruct (foldM_total f l) with (st := a) as [loops ->] end.
  { intros st s. rewrite !key_pt_ok by assumption. cbn. now eexists. }
  cbn [bind]. apply mapM_total, order_loop_total.
Qed.

(** ** The cap of [find_squares] *)

(** [find_squares] returns the first [max(1, max_count)] entries of one
    list: the entries of the qualifying polylines followed, when lines are
    included, by those of the qualifying line loops.  The cap is compared
    after an entry is appended, so a cap of zero or less still lets one
    entry through. *)
Lemma find_squares_firstn_of (ang rel mins pos_tol : R) (rects : bool)
      (ms : list entity) (layer : option string)
      (allP allL : list square) (loops : list (list point)) :
  all_squares ang rel mins rects
              (map polyline_candidate
                   (find_closed_polylines ms layer 4 (mins * mins)))
  = Ret allP ->
  _find_loops_from_lines
    (filter (fun e => on_layer layer e && is_line e) ms) pos_tol = Ret loops ->
  all_squares ang rel mins rects (map lines_candidate loops) = Ret allL ->
  forall (include_lines : bool) (max_count : Z),
    find_squares ang rel mins max_count rects ms layer include_lines pos_tol
    = Ret (firstn (Z.to_nat (Z.max 1 max_count))
                  (if include_lines then allP ++ allL else allP)).
Proof.
  intros HP Hloops HL include_lines max_count.
  unfold find_squares.
  rewrite (collect_capped ang rel mins rects max_count _ allP [] HP).
  cbn [bind app length].
  assert (Hroom : room max_count 0 = Z.to_nat (Z.max 1 max_count))
    by (unfold room; f_equal; lia).
  rewrite Hroom. set (n := Z.to_nat (Z.max 1 max_count)) in *.
  destruct (Nat.leb_spec n (length allP)) as [Hn|Hn].
  - destruct include_lines; [|reflexivity].
    rewrite firstn_app. replace (n - length allP)%nat with 0%nat by lia.
    now rewrite firstn_O, app_nil_r.
  - destruct include_lines;
      rewrite ?(firstn_all2 (n := n) allP) by lia; [|reflexivity].
    rewrite Hloops. cbn [bind].
    rewrite (collect_capped ang rel mins rects max_count
               (map lines_candidate loops) allL allP HL).
    cbn [bind snd]. rewrite firstn_app, (firstn_all2 (n := n) allP) by lia.
    do 3 f_equal. unfold room. subst n. lia.
Qed.

Lemma find_squares_firstn (ang rel mins pos_tol : R) (rects include_lines : bool)
      (ms : list entity) (layer : option string) :
  pos_tol <> 0 ->
  exists all : list square,
    forall max_count : Z,
      find_squares ang rel mins max_count rects ms layer include_lines pos_tol
      = Ret (firstn (Z.to_nat (Z.max 1 max_count)) all).
Proof.
  intros Htol.
  destruct (all_squares_total ang rel mins rects
              (map polyline_candidate
                   (find_closed_polylines ms layer 4 (mins * mins))))
    as [allP HP].
  destruct (find_loops_total
              (filter (fun e => on_layer layer e && is_line e) ms) pos_tol Htol)
    as [loops Hloops].
  destruct (all_squares_total ang rel mins rects (map lines_candidate loops))
    as [allL HL].
  exists (if include_lines then allP ++ allL else allP).
  intros max_count.
  now apply (find_squares_firstn_of ang rel mins pos_tol rects ms layer
               allP allL loops).
Qed.

(** An entry is in the uncapped list exactly when it is the entry made for
    a candidate that passes the test of [find_squares]. *)
Lemma all_squares_members (ang rel mins : R) (rects : bool)
      (cands : list candidate) :
  forall all sq,
    all_squares ang rel mins rects cands = Ret all ->
    (In sq all <->
     exists src hs vs bbox,
       In (src, hs, vs, bbox) cands /\
       qualifies ang rel mins rects vs = Ret true /\
       make_square src hs vs bbox = Ret sq).
Proof.
  induction cands as [|[[[src hs] vs] bbox] rest IH]; intros all sq Hall.
  - cbn in Hall. injection Hall as <-. split; [intros []|].
    intros (? & ? & ? & ? & [] & _).
  - cbn [all_squares] in Hall.
    destruct (qualifies ang rel mins rects vs) as [q|e] eqn:Hq; [|discriminate].
    cbn [bind] in Hall. destruct q.
    + destruct (make_square src hs vs bbox) as [sq0|e] eqn:Hm; [|discriminate].
      cbn [bind] in Hall.
      destruct (all_squares ang rel mins rects rest) as [more|e] eqn:Hr;
        [|discriminate].
      cbn [bind] in Hall. injection Hall as <-. split.
      * intros [<-|Hin].
        -- exists src, hs, vs, bbox. repeat split; [now left|assumption..].
        -- apply (IH more sq eq_refl) in Hin
             as (src' & hs' & vs' & bbox' & Hin' & Hq' & Hm').
           exists src', hs', vs', bbox'. repeat split; [now right|assumption..].
      * intros (src' & hs' & vs' & bbox' & [E|Hin'] & Hq' & Hm').
        -- injection E as <- <- <- <-. left. congruence.
        -- right. apply (IH more sq eq_refl).
           exists src', hs', vs', bbox'. repeat split; assumption.
    + split.
      * intros Hin. apply (IH all sq Hall) in Hin
          as (src' & hs' & vs' & bbox' & Hin' & Hq' & Hm').
        exists src', hs', vs', bbox'. repeat split; [now right|assumption..].
      * intros (src' & hs' & vs' & bbox' & [E|Hin'] & Hq' & Hm').
        -- injection E as <- <- <- <-. congruence.
        -- apply (IH all sq Hall).
           exists src', hs', vs', bbox'. repeat split; assumption.
Qed.

(** With a non-zero positional tolerance [find_squares] always returns.
    Let [allP] be the entries of all closed four-vertex polylines that pass
    the test, in drawing order, [loops] the loops assembled from the lines,
    and [allL] the entries of all loops that pass the test.  Then the result
    is the first [max(1, max_count)] entries of [allP ++ allL] (of [allP]
    alone when lines are not included): never longer than
    [max(1, max_count)], and all of them when [max_count] is at least one
    and at least their number. *)
Lemma find_squares_cap (ang rel mins pos_tol : R) (rects include_lines : bool)
      (ms : list entity) (layer : option string) :
  pos_tol <> 0 ->
  exists (allP allL : list square) (loops : list (list point)),
    all_squares ang rel mins rects
                (map polyline_candidate
                     (find_closed_polylines ms layer 4 (mins * mins)))
    = Ret allP /\
    _find_loops_from_lines
      (filter (fun e => on_layer layer e && is_line e) ms) pos_tol
    = Ret loops /\
    all_squares ang rel mins rects (map lines_candidate loops) = Ret allL /\
    forall max_count : Z,
      let all := if include_lines then allP ++ allL else allP in
      let sqs := firstn (Z.to_nat (Z.max 1 max_count)) all in
      find_squares ang rel mins max_count rects ms layer include_lines pos_tol
      = Ret sqs /\
      (Z.of_nat (length sqs) <= Z.max 1 max_count)%Z /\
      ((1 <= max_count)%Z -> (Z.of_nat (length all) <= max_count)%Z ->
       sqs = all).
Proof.
  intros Htol.
  destruct (all_squares_total ang rel mins rects
              (map polyline_candidate
                   (find_closed_polylines ms layer 4 (mins * mins))))
    as [allP HP].
  destruct (find_loops_total
              (filter (fun e => on_layer layer e && is_line e) ms) pos_tol Htol)
    as [loops Hloops].
  destruct (all_squares_total ang rel mins rects (map lines_candidate loops))
    as [allL HL].
  exists allP, allL, loops. repeat split; try assumption.
  - now apply (find_squares_firstn_of ang rel mins pos_tol rects ms layer
                 allP allL loops).
  - rewrite length_firstn. lia.
  - intros H1 Hlen. apply firstn_all2. lia.
Qed.

(** The unit square drawn as one closed polyline, with the default
    settings. *)
Lemma find_squares_cap_witness :
  exists (allP allL : list square) (loops : list (list point)),
    all_squares _ANG_TOL_DEG _REL_LEN_TOL _MIN_SIDE false
                (map polyline_candidate
                     (find_closed_polylines
                        [Polyline "2A" "0" true (coords2 (axis_square 0 0 1))]
                        None 4 (_MIN_SIDE * _MIN_SIDE)))
    = Ret allP /\
    _find_loops_from_lines
      (filter (fun e => on_layer None e && is_line e)
              [Polyline "2A" "0" true (coords2 (axis_square 0 0 1))]) _POS_TOL
    = Ret loops /\
    all_squares _ANG_TOL_DEG _REL_LEN_TOL _MIN_SIDE false
                (map lines_candidate loops) = Ret allL /\
    forall max_count : Z,
      let all := if true then allP ++ allL else allP in
      let sqs := firstn (Z.to_nat (Z.max 1 max_count)) all in
      find_squares _ANG_TOL_DEG _REL_LEN_TOL _MIN_SIDE max_count false
                   [Polyline "2A" "0" true (coords2 (axis_square 0 0 1))]
                   None true _POS_TOL
      = Ret sqs /\
      (Z.of_nat (length sqs) <= Z.max 1 max_count)%Z /\
      ((1 <= max_count)%Z -> (Z.of_nat (length all) <= max_count)%Z ->
       sqs = all).
Proof.
  apply (find_squares_cap _ANG_TOL_DEG _REL_LEN_TOL _MIN_SIDE _POS_TOL
           false true
           [Polyline "2A" "0" true (coords2 (axis_square 0 0 1))] None).
  unfold _POS_TOL. lra.
Defined.

(** ** An axis-aligned square drawn as one closed polyline *)

(** C1, as the code has it.  An axis-aligned square of side [s], with [s]
    greater than the positional tolerance [_POS_TOL] and [min_side] between
    [- s] and [s] (so that neither the side test [s >= min_side] nor the
    area test [s * s >= min_side * min_side] rejects it), drawn as the only
    entity, a closed polyline of its four vertices on a layer that passes
    the filter: for every first vertex ([k]) and both windings
    [find_squares] returns exactly one entry, of source [polyline], whose
    centre is the centre of the square (hence within the positional
    tolerance of it).  The angular tolerance is not negative; the other
    parameters are free. *)
Theorem square_polyline_detected
        (x y s z ang rel mins pos_tol : R) (max_count : Z)
        (rects include_lines clockwise : bool) (k : nat)
        (h l : string) (layer : option string) (coords : list R) :
  (k < 4)%nat -> _POS_TOL < s -> - s <= mins <= s -> 0 <= ang ->
  on_layer layer (Polyline h l true coords) = true ->
  coords = coords2 (listing x y s clockwise k) \/
  coords = coords3 z (listing x y s clockwise k) ->
  exists sq,
    find_squares ang rel mins max_count rects
                 [Polyline h l true coords] layer include_lines pos_tol
    = Ret [sq] /\
    sq_source sq = polyline /\
    sq_vertices sq = listing x y s clockwise k /\
    sq_center sq = (x + s / 2, y + s / 2) /\
    _dist (sq_center sq) (x + s / 2, y + s / 2) <= _POS_TOL.
Proof.
  intros Hk Hs Hmin Hang Hlayer Hcoords.
  eexists. split.
  - now apply (single_square_found x y s z ang rel mins pos_tol max_count
                 rects include_lines clockwise k h l layer coords).
  - cbn [sq_source sq_vertices sq_center]. repeat split.
    rewrite dist_same_point. pose proof POS_TOL_pos. lra.
Qed.

(** The unit square at the origin, listed clockwise from its third vertex,
    with the default settings. *)
Lemma square_polyline_detected_witness :
  exists sq,
    find_squares _ANG_TOL_DEG _REL_LEN_TOL _MIN_SIDE 2000 false
                 [Polyline "2A" "0" true (coords2 (listing 0 0 1 true 2))]
                 None true _POS_TOL
    = Ret [sq] /\
    sq_source sq = polyline /\
    sq_vertices sq = listing 0 0 1 true 2 /\
    sq_center sq = (0 + 1 / 2, 0 + 1 / 2) /\
    _dist (sq_center sq) (0 + 1 / 2, 0 + 1 / 2) <= _POS_TOL.
Proof.
  apply (square_polyline_detected 0 0 1 0 _ANG_TOL_DEG _REL_LEN_TOL _MIN_SIDE
           _POS_TOL 2000 false true true 2 "2A" "0" None
           (coords2 (listing 0 0 1 true 2))).
  - lia.
  - unfold _POS_TOL. lra.
  - unfold _MIN_SIDE. lra.
  - unfold _ANG_TOL_DEG. lra.
  - reflexivity.
  - left. reflexivity.
Defined.

(** C1, as stated, fails.  With the default settings the axis-aligned
    square of side [1e-6] at the origin, whose side equals [_MIN_SIDE], is
    not detected when drawn as one closed polyline: its last vertex is
    [1e-6] from the first, which is within [_POS_TOL], so it is dropped as a
    repeated closing point, and three vertices are fewer than the four
    [find_squares] asks for.  And with [min_side = -10] the unit square is
    not detected: its area [1] is below [min_side * min_side = 100], the
    least area [find_squares] asks of a closed polyline. *)
Lemma boundary_square_not_detected :
  find_squares _ANG_TOL_DEG _REL_LEN_TOL _MIN_SIDE 2000 false
               [Polyline "2A" "0" true
                         (coords2 (axis_square 0 0 (1 / 1000000)))]
               None true _POS_TOL
  = Ret [] /\
  find_squares _ANG_TOL_DEG _REL_LEN_TOL (-10) 2000 false
               [Polyline "2A" "0" true (coords2 (axis_square 0 0 1))]
               None true _POS_TOL
  = Ret [].
Proof.
  split.
  - unfold find_squares. cbn [find_closed_polylines].
    unfold closed_polyline_info. cbn [on_layer negb].
    assert (Hverts : length (_polyline_vertices_2d_ordered
                               (coords2 (axis_square 0 0 (1 / 1000000))))
                     = 3%nat).
    { unfold _polyline_vertices_2d_ordered, _coords_from_polyline.
      cbn [axis_square coords2 flat_map app chunk3 chunk2 option_map fst snd
           map length Nat.leb hd last andb].
      rewrite dist_same_x, Rabs_step_back by lra.
      rewrite (proj2 (Rleb_true _ _)) by (unfold _POS_TOL; lra).
      reflexivity. }
    rewrite Hverts. cbn [Nat.ltb Nat.leb map collect bind filter andb is_line].
    rewrite no_lines_no_loops. reflexivity.
  - unfold find_squares. cbn [find_closed_polylines].
    unfold closed_polyline_info. cbn [on_layer negb]. unfold axis_square.
    rewrite (polyline_vertices_four (0, 0) (0 + 1, 0) (0 + 1, 0 + 1) (0, 0 + 1) 0)
      by (try (now left);
          rewrite dist_same_x, Rabs_step_back by lra; unfold _POS_TOL; lra).
    change [(0, 0); (0 + 1, 0); (0 + 1, 0 + 1); (0, 0 + 1)]
      with (listing 0 0 1 false 0).
    rewrite listing_length, listing_area by lia.
    cbn [Nat.ltb Nat.leb].
    rewrite (proj2 (Rltb_true (1 * 1) (-10 * -10))) by lra.
    cbn [map collect bind filter andb is_line on_layer].
    rewrite no_lines_no_loops. reflexivity.
Qed.

(** C4 at its failing input.  With [max_count = 0] and a drawing that holds
    one square polyline, [find_squares] returns a list of length one: the
    cap is compared only after the entry has been appended. *)
Theorem find_squares_cap_zero_returns_one :
  exists sqs,
    find_squares _ANG_TOL_DEG _REL_LEN_TOL _MIN_SIDE 0 false
                 [Polyline "2A" "0" true (coords2 (axis_square 0 0 1))]
                 None true _POS_TOL
    = Ret sqs /\
    length sqs = 1%nat /\ ~ (Z.of_nat (length sqs) <= 0)%Z.
Proof.
  eexists. split.
  - apply (single_square_found 0 0 1 0 _ANG_TOL_DEG _REL_LEN_TOL _MIN_SIDE
             _POS_TOL 0 false true false 0 "2A" "0" None
             (coords2 (axis_square 0 0 1))).
    + lia.
    + unfold _POS_TOL. lra.
    + unfold _MIN_SIDE. lra.
    + unfold _ANG_TOL_DEG. lra.
    + reflexivity.
    + left. reflexivity.
  - cbn [length]. split; [reflexivity|lia].
Qed.

(** ** What [inscribe_squares_in_circles] draws *)

Lemma inscribe_loop_capped (layer_name : string) (layer_filter : option string)
      (max_count : Z) (ms : list entity) :
  forall inserted : Z,
    let chosen := firstn (Z.to_nat (Z.max 1 (max_count - inserted)))
                         (circles_on layer_filter ms) in
    inscribe_loop layer_name layer_filter max_count ms inserted =
    ((inserted + Z.of_nat (length chosen))%Z,
     map (inscribed_square layer_name) chosen).
Proof.
  induction ms as [|e rest IH]; intros inserted; cbv zeta.
  - cbn [circles_on flat_map inscribe_loop]. rewrite firstn_nil. cbn.
    f_equal. lia.
  - cbn [inscribe_loop circles_on flat_map]. fold (circles_on layer_filter rest).
    destruct e as [h l cl co|h l sp ep|h l c r|h l];
      try (cbn [app]; apply IH).
    destruct (on_layer layer_filter (Circle h l c r)); cbn [negb app];
      [|apply IH].
    destruct (Z.leb_spec max_count (inserted + 1)) as [Hk|Hk].
    + replace (Z.to_nat (Z.max 1 (max_count - inserted))) with 1%nat by lia.
      cbn [firstn length map inscribed_square]. reflexivity.
    + rewrite IH. cbv zeta.
      replace (Z.to_nat (Z.max 1 (max_count - inserted)))
        with (S (Z.to_nat (Z.max 1 (max_count - (inserted + 1))))) by lia.
      cbn [firstn length map inscribed_square]. f_equal. lia.
Qed.

(** [inscribe_squares_in_circles] prepares the layer, then draws the
    inscribed square of each of the first [max(1, max_count)] circles on the
    filtered layer, and reports how many it drew. *)
Lemma inscribe_squares_calls (ms : list entity) (layer_name : string)
      (color : pycolor) (layer_filter : option string) (max_count : Z) :
  let chosen := firstn (Z.to_nat (Z.max 1 max_count))
                       (circles_on layer_filter ms) in
  inscribe_squares_in_circles ms layer_name color layer_filter max_count =
  (Z.of_nat (length chosen), layer_name,
   ensure_layer layer_name color :: set_current_layer layer_name
     :: map (inscribed_square layer_name) chosen).
Proof.
  cbv zeta. unfold inscribe_squares_in_circles.
  rewrite inscribe_loop_capped. cbv zeta.
  rewrite Z.sub_0_r, Z.add_0_l. reflexivity.
Qed.

(** [inscribe_squares_in_circles] prepares the layer, draws the inscribed
    square of each of the first [max(1, max_count)] circles that pass the
    layer filter, in drawing order, and reports how many it drew. *)
Lemma inscribe_squares_drawn (ms : list entity) (layer_name : string)
      (color : pycolor) (layer_filter : option string) (max_count : Z) :
  let chosen := firstn (Z.to_nat (Z.max 1 max_count))
                       (circles_on layer_filter ms) in
  inscribe_squares_in_circles ms layer_name color layer_filter max_count =
  (Z.of_nat (length chosen), layer_name,
   ensure_layer layer_name color :: set_current_layer layer_name
     :: map (inscribed_square layer_name) chosen).
Proof.
  exact (inscribe_squares_calls ms layer_name color layer_filter max_count).
Qed.

Lemma sqrt2_pos : 0 < sqrt 2.
Proof. apply sqrt_lt_R0. lra. Qed.

Lemma sqrt2_sqr : sqrt 2 * sqrt 2 = 2.
Proof. apply sqrt_sqrt. lra. Qed.

(** The square inscribed in the circle of centre [(cx, cy)] and radius
    [r]: its side is [r * sqrt 2], its diagonal the diameter, its centre the
    centre of the circle. *)
Lemma inscribed_square_geometry (cx cy r : R) :
  let half := r / sqrt 2 in
  let base := (cx - half, cy - half) in
  let side := half * 2 in
  side = r * sqrt 2 /\
  side * side + side * side = (2 * r) * (2 * r) /\
  (fst base + side / 2, snd base + side / 2) = (cx, cy).
Proof.
  cbv zeta. cbn [fst snd].
  pose proof sqrt2_pos as Hp. pose proof sqrt2_sqr as Hs.
  assert (Hside : r / sqrt 2 * 2 = r * sqrt 2).
  { rewrite <- Hs at 2. field. lra. }
  rewrite Hside. repeat split.
  - nra.
  - f_equal; rewrite <- Hside; field; lra.
Qed.

(** A rectangle higher than the tolerance is drawn as a closed polyline of
    its four corners and the first corner again. *)
Lemma draw_rectangle_corners (x y w h : R) (layer : option string) :
  _POS_TOL < h ->
  draw_rectangle (x, y) w h layer =
  AddPolyline
    (_to_3d_flat [(x, y); (x + w, y); (x + w, y + h); (x, y + h); (x, y)])
    true (layer_set layer).
Proof.
  intros Hh. pose proof POS_TOL_pos as Htol.
  unfold draw_rectangle, draw_polyline. cbv zeta. cbn [fst snd last andb].
  rewrite dist_same_x, Rabs_step_back by lra.
  now rewrite (proj2 (Rltb_true _ _) Hh).
Qed.

(** The worked example: one circle of radius 100 at the origin, default
    arguments.  One square is drawn, of side [100 * sqrt 2], centred at the
    origin. *)
Lemma inscribe_square_example :
  let half := 100 / sqrt 2 in
  inscribe_squares_in_circles [Circle "1F" "0" (0, 0, 0) 100]
                              "CIRCLES_YELLOW" (color_int 2) None 5000 =
  (1%Z, "CIRCLES_YELLOW"%string,
   [ ensure_layer "CIRCLES_YELLOW" (color_int 2);
     set_current_layer "CIRCLES_YELLOW";
     draw_rectangle (0 - half, 0 - half) (half * 2) (half * 2)
                    (Some "CIRCLES_YELLOW"%string) ]) /\
  half * 2 = 100 * sqrt 2 /\
  ((0 - half) + half * 2 / 2, (0 - half) + half * 2 / 2) = (0, 0).
Proof.
  cbv zeta. split; [|split].
  - rewrite inscribe_squares_calls. reflexivity.
  - apply (inscribed_square_geometry 0 0 100).
  - apply (inscribed_square_geometry 0 0 100).
Qed.

(** C5 at its failing input.  With [max_count = 0] and one circle in the
    drawing, [inscribe_squares_in_circles] draws one square and reports
    [inserted = 1]: the cap is compared only after the square is drawn. *)
Theorem inscribe_squares_cap_zero_draws_one :
  exists drawn,
    inscribe_squares_in_circles [Circle "1F" "0" (0, 0, 0) 100]
                                "CIRCLES_YELLOW" (color_int 2) None 0 =
    (1%Z, "CIRCLES_YELLOW"%string,
     [ ensure_layer "CIRCLES_YELLOW" (color_int 2);
       set_current_layer "CIRCLES_YELLOW";
       drawn ]) /\
    drawn = inscribed_square "CIRCLES_YELLOW" ((0, 0, 0), 100) /\
    ~ (1 <= 0)%Z.
Proof.
  eexists. split; [|split].
  - rewrite inscribe_squares_calls. reflexivity.
  - reflexivity.
  - lia.
Qed.

(** ** The largest element: [sort(reverse=True)[0]] and [max(key=...)] *)

Lemma sort_reverse_insert_hd {A : Type} (key : A -> R) (x d : A) (s : list A) :
  (forall q, In q s -> key q <= key (hd d s)) ->
  forall q, In q (x :: s) ->
            key q <= key (hd d (insert_by (fun a b => Rltb b a) key x s)).
Proof.
  intros Hmax q Hq. destruct s as [|y t]; cbn [insert_by hd].
  - destruct Hq as [<-|[]]. lra.
  - cbn [hd] in Hmax.
    destruct (Rltb (key x) (key y)) eqn:E; cbn [hd].
    + apply Rltb_true in E. destruct Hq as [<-|Hq]; [lra|now apply Hmax].
    + apply Rltb_false in E. destruct Hq as [<-|Hq]; [lra|].
      apply Rle_trans with (key y); [now apply Hmax|assumption].
Qed.

Lemma sort_reverse_hd_max {A : Type} (key : A -> R) (d : A) (l : list A) :
  forall q, In q l -> key q <= key (hd d (py_sort_reverse key l)).
Proof.
  unfold py_sort_reverse. induction l as [|x t IH]; intros q Hq.
  - destruct Hq.
  - cbn [py_sort].
    pose proof (py_sort_perm (fun a b => Rltb b a) key t) as Hp.
    apply sort_reverse_insert_hd.
    + intros q' Hq'. apply IH.
      now apply (Permutation_in q' (Permutation_sym Hp)).
    + destruct Hq as [<-|Hq]; [now left|right].
      now apply (Permutation_in q Hp).
Qed.

Lemma sort_reverse_hd_in {A : Type} (key : A -> R) (d : A) (l : list A) :
  l <> [] -> In (hd d (py_sort_reverse key l)) l.
Proof.
  intros Hne. unfold py_sort_reverse.
  pose proof (py_sort_perm (fun a b => Rltb b a) key l) as Hp.
  destruct (py_sort (fun a b => Rltb b a) key l) as [|y t].
  - apply Permutation_sym, Permutation_nil in Hp. contradiction.
  - cbn [hd]. apply (Permutation_in y (Permutation_sym Hp)). now left.
Qed.

Lemma py_max_by_max {A : Type} (key : A -> R) (rest : list A) :
  forall x,
    In (py_max_by key x rest) (x :: rest) /\
    (forall q, In q (x :: rest) -> key q <= key (py_max_by key x rest)).
Proof.
  unfold py_max_by. induction rest as [|y t IH]; intros x; cbn [fold_left].
  - split; [now left|]. intros q [<-|[]]. lra.
  - destruct (Rltb (key x) (key y)) eqn:E.
    + apply Rltb_true in E. destruct (IH y) as [Hin Hmax]. split.
      * right. exact Hin.
      * intros q [<-|Hq]; [|now apply Hmax].
        apply Rle_trans with (key y); [lra|]. apply Hmax. now left.
    + apply Rltb_false in E. destruct (IH x) as [Hin Hmax]. split.
      * destruct Hin as [<-|Hin]; [now left|]. right. now right.
      * intros q [<-|[<-|Hq]].
        -- apply Hmax. now left.
        -- apply Rle_trans with (key x); [lra|]. apply Hmax. now left.
        -- apply Hmax. now right.
Qed.

(** An entry of [find_closed_polylines] is made from an entity of the
    drawing, and with a positive [min_vertices] it has a bounding box. *)
Lemma closed_polyline_has_bbox (layer : option string) (n : nat) (a : R)
      (e : entity) (p : polyline_info) :
  (1 <= n)%nat ->
  closed_polyline_info layer n a e = Some p ->
  exists b, pl_bbox p = Some b.
Proof.
  intros Hn. unfold closed_polyline_info.
  destruct e as [h l cl co|h l sp ep|h l c r|h l]; try discriminate.
  destruct (negb _); [discriminate|]. destruct (negb cl); [discriminate|].
  destruct (Nat.ltb_spec (length (_polyline_vertices_2d_ordered co)) n);
    [discriminate|].
  destruct (Rltb _ a); [discriminate|]. intros E. injection E as <-.
  cbn [pl_bbox].
  destruct (_polyline_vertices_2d_ordered co) as [|v vs]; [cbn in *; lia|].
  cbn. now eexists.
Qed.

Lemma found_polylines_have_bbox (ms : list entity) (layer : option string)
      (n : nat) (a : R) (p : polyline_info) :
  (1 <= n)%nat ->
  In p (find_closed_polylines ms layer n a) ->
  exists b, pl_bbox p = Some b.
Proof.
  intros Hn. induction ms as [|e rest IH]; cbn [find_closed_polylines].
  - intros [].
  - destruct (closed_polyline_info layer n a e) as [info|] eqn:E; [|exact IH].
    intros [<-|Hin]; [|now apply IH].
    now apply (closed_polyline_has_bbox layer n a e).
Qed.

(** ** The base of the roof *)

Lemma pick_largest_closed_polyline_max (ms : list entity)
      (layer : option string) :
  let polys := find_closed_polylines ms layer 3 (_MIN_SIDE * _MIN_SIDE) in
  polys <> [] ->
  exists p b,
    pick_largest_closed_polyline ms layer = Ok p /\
    In p polys /\
    (forall q, In q polys -> pl_area q <= pl_area p) /\
    pl_bbox p = Some b.
Proof.
  cbv zeta. intros Hne. unfold pick_largest_closed_polyline.
  destruct (find_closed_polylines ms layer 3 (_MIN_SIDE * _MIN_SIDE))
    as [|p0 rest] eqn:E; [contradiction|].
  rewrite <- E in *.
  set (p := hd p0 (py_sort_reverse pl_area _)).
  assert (Hin : In p (find_closed_polylines ms layer 3 (_MIN_SIDE * _MIN_SIDE)))
    by (apply sort_reverse_hd_in; assumption).
  destruct (found_polylines_have_bbox ms layer 3 (_MIN_SIDE * _MIN_SIDE) p)
    as [b Hb]; [lia|assumption|].
  exists p, b. repeat split; try assumption.
  intros q Hq. now apply sort_reverse_hd_max.
Qed.

Lemma find_squares_default_total (ms : list entity) (layer : option string) :
  exists sqs,
    find_squares _ANG_TOL_DEG _REL_LEN_TOL _MIN_SIDE 2000 false
                 ms layer true _POS_TOL = Ret sqs.
Proof.
  destruct (find_squares_firstn _ANG_TOL_DEG _REL_LEN_TOL _MIN_SIDE _POS_TOL
              false true ms layer) as [all Hall].
  - pose proof POS_TOL_pos. lra.
  - rewrite Hall. now eexists.
Qed.

(** C3, as the code has it.  When closed polylines exist (three or more
    vertices, area at least [_MIN_SIDE^2], on the source layer), the roof is
    built on the bounding box of the one of largest polygon area.  Only when
    there is none does it fall back to [find_squares] over polylines and line
    loops with the default settings, rectangles not allowed, and build on the
    detected square of largest bounding-box area. *)
Theorem roof_base_selection (ms : list entity)
        (layer_source layer_result : option string) (height_ratio overhang : R) :
  let polys := find_closed_polylines ms layer_source 3 (_MIN_SIDE * _MIN_SIDE) in
  let layer := or_str layer_result layer_source in
  let roof := draw_triangle_roof_over_largest_square
                ms layer_source layer_result height_ratio overhang in
  (polys <> [] ->
   exists p b,
     In p polys /\
     (forall q, In q polys -> pl_area q <= pl_area p) /\
     pl_bbox p = Some b /\
     roof = Ret (Ok tt, [roof_polyline b height_ratio overhang layer])) /\
  (polys = [] ->
   exists sqs,
     find_squares _ANG_TOL_DEG _REL_LEN_TOL _MIN_SIDE 2000 false
                  ms layer_source true _POS_TOL = Ret sqs /\
     match sqs with
     | [] => roof = Ret (NotOk "no_squares", [])
     | _ :: _ =>
         exists best,
           In best sqs /\
           (forall q, In q sqs -> square_bbox_area q <= square_bbox_area best) /\
           roof = Ret match square_bbox best with
                      | Some b =>
                          (Ok tt, [roof_polyline b height_ratio overhang layer])
                      | None => (NotOk "no_bbox", [])
                      end
     end).
Proof.
  cbv zeta. split.
  - intros Hne.
    destruct (pick_largest_closed_polyline_max ms layer_source Hne)
      as (p & b & Hpick & Hin & Hmax & Hb).
    exists p, b. repeat split; try assumption.
    unfold draw_triangle_roof_over_largest_square.
    rewrite Hpick, Hb. reflexivity.
  - intros Hnil.
    destruct (find_squares_default_total ms layer_source) as [sqs Hsqs].
    exists sqs. split; [assumption|].
    unfold draw_triangle_roof_over_largest_square, pick_largest_closed_polyline.
    rewrite Hnil. cbv zeta. unfold roof_fallback. rewrite Hsqs. cbn [bind].
    destruct sqs as [|s0 rest]; [reflexivity|].
    destruct (py_max_by_max square_bbox_area rest s0) as [Hin Hmax].
    exists (py_max_by square_bbox_area s0 rest).
    repeat split; try assumption.
    destruct (square_bbox _); reflexivity.
Qed.

(** ** Concrete drawings *)

(** The entry of a closed four-vertex 2D polyline whose first and last
    vertices are more than the tolerance apart. *)
Lemma closed_polyline_info_four (a b c d : point) (h l : string)
      (layer : option string) (n : nat) (min_area : R) :
  on_layer layer (Polyline h l true (coords2 [a; b; c; d])) = true ->
  _POS_TOL < _dist a d -> (n <= 4)%nat ->
  min_area <= _poly_area_xy [a; b; c; d] ->
  closed_polyline_info layer n min_area
                       (Polyline h l true (coords2 [a; b; c; d])) =
  Some {| pl_handle := h; pl_layer := l; pl_vertices := [a; b; c; d];
          pl_area := _poly_area_xy [a; b; c; d];
          pl_bbox := _bbox_from_points_2d [a; b; c; d] |}.
Proof.
  intros Hlayer Hfar Hn Harea. unfold closed_polyline_info.
  rewrite Hlayer. cbn [negb].
  rewrite (polyline_vertices_four a b c d 0) by (auto; now left).
  cbn [length]. rewrite (proj2 (Nat.ltb_ge _ _) Hn).
  now rewrite (proj2 (Rltb_false _ _) Harea).
Qed.

(** The entry of a closed three-vertex 3D polyline. *)
Lemma polyline_vertices_three (a b c : point) (z : R) :
  _POS_TOL < _dist a c ->
  _polyline_vertices_2d_ordered (coords3 z [a; b; c]) = [a; b; c].
Proof.
  destruct a as [ax ay], b as [bx by'], c as [cx cy]. intros Hfar.
  unfold _polyline_vertices_2d_ordered, _coords_from_polyline.
  cbn [coords3 flat_map app chunk3 option_map fst snd map
       length Nat.leb hd last andb].
  now rewrite (proj2 (Rleb_false _ _) Hfar).
Qed.

Lemma hypot_above (t x y : R) : 0 <= t -> t * t < x * x + y * y -> t < hypot x y.
Proof.
  intros Ht Hlt. unfold hypot.
  rewrite <- (sqrt_square t) by assumption.
  apply sqrt_lt_1_alt. split; [nra|assumption].
Qed.

(** Minimum and maximum of two numbers whose order [lra] finds. *)
Ltac order_minmax :=
  repeat match goal with
         | |- context [Rmin ?a ?b] =>
             first [ rewrite (Rmin_left a b) by lra
                   | rewrite (Rmin_right a b) by lra ]
         | |- context [Rmax ?a ?b] =>
             first [ rewrite (Rmax_left a b) by lra
                   | rewrite (Rmax_right a b) by lra ]
         end.

Lemma diamond_area : _poly_area_xy [(5, 0); (10, 5); (5, 10); (0, 5)] = 50.
Proof.
  unfold _poly_area_xy. cbn [length Nat.ltb Nat.leb seq fold_left].
  unfold edge_at, nth_pt.
  cbn [length Nat.add Nat.sub Nat.modulo Nat.divmod fst snd nth cross].
  replace (0 + (5 * 5 - 10 * 0) + (10 * 10 - 5 * 5) + (5 * 5 - 0 * 10)
           + (0 * 0 - 5 * 5)) with 100 by ring.
  rewrite Rabs_pos_eq; lra.
Qed.

Lemma square8_area : _poly_area_xy (axis_square 0 0 8) = 64.
Proof.
  change (axis_square 0 0 8) with (listing 0 0 8 false 0).
  rewrite listing_area by lia. ring.
Qed.

Lemma diamond_and_square8_found :
  find_closed_polylines [diamond; square8] None 3 (_MIN_SIDE * _MIN_SIDE) =
  [ {| pl_handle := "D1"; pl_layer := "0";
       pl_vertices := [(5, 0); (10, 5); (5, 10); (0, 5)];
       pl_area := _poly_area_xy [(5, 0); (10, 5); (5, 10); (0, 5)];
       pl_bbox := _bbox_from_points_2d [(5, 0); (10, 5); (5, 10); (0, 5)] |};
    {| pl_handle := "S8"; pl_layer := "0";
       pl_vertices := axis_square 0 0 8;
       pl_area := _poly_area_xy (axis_square 0 0 8);
       pl_bbox := _bbox_from_points_2d (axis_square 0 0 8) |} ].
Proof.
  cbn [find_closed_polylines]. unfold diamond, square8, axis_square.
  rewrite (closed_polyline_info_four (5, 0) (10, 5) (5, 10) (0, 5)),
          (closed_polyline_info_four (0, 0) (0 + 8, 0) (0 + 8, 0 + 8) (0, 0 + 8));
    try reflexivity; try lia.
  - rewrite dist_same_x, Rabs_step_back by lra. unfold _POS_TOL. lra.
  - change (_MIN_SIDE * _MIN_SIDE <= _poly_area_xy (axis_square 0 0 8)).
    rewrite square8_area. unfold _MIN_SIDE. lra.
  - unfold _dist. cbn [fst snd]. apply hypot_above; unfold _POS_TOL; lra.
  - rewrite diamond_area. unfold _MIN_SIDE. lra.
Qed.

Lemma diamond_bbox :
  _bbox_from_points_2d [(5, 0); (10, 5); (5, 10); (0, 5)]
  = Some ((0, 0), (10, 10)).
Proof.
  unfold _bbox_from_points_2d. cbn [map fst snd fold_left].
  order_minmax. reflexivity.
Qed.

Lemma square8_bbox :
  _bbox_from_points_2d (axis_square 0 0 8) = Some ((0, 0), (0 + 8, 0 + 8)).
Proof.
  unfold _bbox_from_points_2d, axis_square. cbn [map fst snd fold_left].
  order_minmax. reflexivity.
Qed.

(** C3, as stated, fails.  The drawing holds two closed polylines, both
    squares: one standing on a corner (polygon area 50, bounding box 10 by
    10) and one axis-aligned of side 8 (polygon area 64, bounding box 8 by
    8).  The first has the larger bounding box, yet the roof is built on the
    second, which has the larger polygon area. *)
Lemma roof_base_not_largest_bbox :
  exists d s,
    find_closed_polylines [diamond; square8] None 3 (_MIN_SIDE * _MIN_SIDE)
    = [d; s] /\
    pl_bbox d = Some ((0, 0), (10, 10)) /\
    pl_bbox s = Some ((0, 0), (0 + 8, 0 + 8)) /\
    bbox_area ((0, 0), (0 + 8, 0 + 8)) < bbox_area ((0, 0), (10, 10)) /\
    pl_area d < pl_area s /\
    pick_largest_closed_polyline [diamond; square8] None = Ok s /\
    draw_triangle_roof_over_largest_square [diamond; square8] None None (1 / 2) 0
    = Ret (Ok tt, [roof_polyline ((0, 0), (0 + 8, 0 + 8)) (1 / 2) 0 None]).
Proof.
  assert (Hpick : pick_largest_closed_polyline [diamond; square8] None =
                  Ok {| pl_handle := "S8"; pl_layer := "0";
                        pl_vertices := axis_square 0 0 8;
                        pl_area := _poly_area_xy (axis_square 0 0 8);
                        pl_bbox := _bbox_from_points_2d (axis_square 0 0 8) |}).
  { unfold pick_largest_closed_polyline. rewrite diamond_and_square8_found.
    unfold py_sort_reverse. cbn [py_sort insert_by pl_area].
    rewrite diamond_area, square8_area.
    rewrite (proj2 (Rltb_true 50 64)) by lra. reflexivity. }
  do 2 eexists. split; [apply diamond_and_square8_found|].
  cbn [pl_bbox pl_area]. repeat split.
  - apply diamond_bbox.
  - apply square8_bbox.
  - unfold bbox_area. order_minmax. lra.
  - rewrite diamond_area, square8_area. lra.
  - exact Hpick.
  - unfold draw_triangle_roof_over_largest_square.
    rewrite Hpick. cbn [pl_bbox]. rewrite square8_bbox. reflexivity.
Qed.

(** ** Empty inputs *)

Lemma roof_without_base (ms : list entity)
      (layer_source layer_result : option string) (height_ratio overhang : R) :
  find_closed_polylines ms layer_source 3 (_MIN_SIDE * _MIN_SIDE) = [] ->
  find_squares _ANG_TOL_DEG _REL_LEN_TOL _MIN_SIDE 2000 false
               ms layer_source true _POS_TOL = Ret [] ->
  draw_triangle_roof_over_largest_square
    ms layer_source layer_result height_ratio overhang
  = Ret (NotOk "no_squares", []).
Proof.
  intros Hpolys Hsqs.
  unfold draw_triangle_roof_over_largest_square, pick_largest_closed_polyline.
  rewrite Hpolys. cbv zeta. unfold roof_fallback. rewrite Hsqs. reflexivity.
Qed.

(** C7, as the code has it.  An empty input is reported as a result that
    is not [ok] and carries a reason, and nothing is raised: no closed
    polyline for [pick_largest_closed_polyline], no circle for
    [pick_largest_circle] and [make_snowman_from_circle], and for
    [draw_triangle_roof_over_largest_square] neither a closed polyline nor a
    qualifying square. *)
Theorem empty_input_not_found (ms : list entity)
        (layer layer_result : option string) (color : pycolor)
        (middle_scale head_scale gap_ratio eye_scale hand_scale foot_scale : R)
        (draw_arms draw_legs : bool) (height_ratio overhang : R) :
  (find_closed_polylines ms layer 3 (_MIN_SIDE * _MIN_SIDE) = [] ->
   pick_largest_closed_polyline ms layer = NotOk "no_closed_polylines") /\
  (find_circles ms layer 0 5000 = [] ->
   pick_largest_circle ms layer = NotOk "no_circles" /\
   fst (make_snowman_from_circle layer layer_result color middle_scale
          head_scale gap_ratio eye_scale draw_arms draw_legs hand_scale
          foot_scale ms) = NotOk "no_circles") /\
  (find_closed_polylines ms layer 3 (_MIN_SIDE * _MIN_SIDE) = [] ->
   find_squares _ANG_TOL_DEG _REL_LEN_TOL _MIN_SIDE 2000 false
                ms layer true _POS_TOL = Ret [] ->
   draw_triangle_roof_over_largest_square ms layer layer_result
                                          height_ratio overhang
   = Ret (NotOk "no_squares", [])).
Proof.
  split; [|split].
  - intros H. unfold pick_largest_closed_polyline. now rewrite H.
  - intros H.
    assert (Hpick : pick_largest_circle ms layer = NotOk "no_circles")
      by (unfold pick_largest_circle; now rewrite H).
    split; [exact Hpick|].
    unfold make_snowman_from_circle. now rewrite Hpick.
  - apply roof_without_base.
Qed.

(** The empty drawing. *)
Lemma empty_input_not_found_witness :
  pick_largest_closed_polyline [] None = NotOk "no_closed_polylines" /\
  pick_largest_circle [] None = NotOk "no_circles" /\
  fst (make_snowman_from_circle None None (color_str "white")
         (7 / 10) (5 / 10) (1 / 10) (12 / 100) true true (12 / 100) (12 / 100)
         []) = NotOk "no_circles" /\
  draw_triangle_roof_over_largest_square [] None None (1 / 2) 0
  = Ret (NotOk "no_squares", []).
Proof.
  destruct (empty_input_not_found [] None None (color_str "white")
              (7 / 10) (5 / 10) (1 / 10) (12 / 100) (12 / 100) (12 / 100)
              true true (1 / 2) 0) as (Hpoly & Hcirc & Hroof).
  split; [apply Hpoly; reflexivity|].
  split; [apply Hcirc; reflexivity|].
  split; [apply Hcirc; reflexivity|].
  apply Hroof; reflexivity.
Defined.

Lemma triangle_area : _poly_area_xy [(0, 0); (4, 0); (0, 3)] = 6.
Proof.
  unfold _poly_area_xy. cbn [length Nat.ltb Nat.leb seq fold_left].
  unfold edge_at, nth_pt.
  cbn [length Nat.add Nat.sub Nat.modulo Nat.divmod fst snd nth cross].
  replace (0 + (0 * 0 - 4 * 0) + (4 * 3 - 0 * 0) + (0 * 0 - 0 * 3))
    with 12 by ring.
  rewrite Rabs_pos_eq; lra.
Qed.

Lemma triangle_vertices :
  _polyline_vertices_2d_ordered (coords3 0 [(0, 0); (4, 0); (0, 3)])
  = [(0, 0); (4, 0); (0, 3)].
Proof.
  apply polyline_vertices_three.
  rewrite dist_same_x. unfold _POS_TOL, Rabs.
  destruct (Rcase_abs (0 - 3)); lra.
Qed.

(** C7, as stated, fails for the roof.  In a drawing that holds only a
    closed triangle no qualifying square exists ([find_squares] returns the
    empty list), yet [draw_triangle_roof_over_largest_square] returns an [ok]
    result: it builds the roof on the bounding box of the triangle. *)
Lemma roof_over_triangle_is_ok :
  find_squares _ANG_TOL_DEG _REL_LEN_TOL _MIN_SIDE 2000 false
               [triangle] None true _POS_TOL = Ret [] /\
  draw_triangle_roof_over_largest_square [triangle] None None (1 / 2) 0
  = Ret (Ok tt, [roof_polyline ((0, 0), (4, 3)) (1 / 2) 0 None]) /\
  ok (Ok tt : result unit) = true.
Proof.
  split; [|split; [|reflexivity]].
  - unfold find_squares, triangle. cbn [find_closed_polylines].
    unfold closed_polyline_info. cbn [on_layer negb].
    rewrite triangle_vertices.
    cbn [length Nat.ltb Nat.leb map collect bind filter andb is_line].
    rewrite no_lines_no_loops. reflexivity.
  - unfold draw_triangle_roof_over_largest_square,
           pick_largest_closed_polyline, triangle.
    cbn [find_closed_polylines]. unfold closed_polyline_info.
    cbn [on_layer negb]. rewrite triangle_vertices, triangle_area.
    cbn [length Nat.ltb Nat.leb].
    rewrite (proj2 (Rltb_false 6 (_MIN_SIDE * _MIN_SIDE)))
      by (unfold _MIN_SIDE; lra).
    unfold py_sort_reverse. cbn [py_sort insert_by hd pl_bbox].
    unfold _bbox_from_points_2d. cbn [map fst snd fold_left].
    order_minmax. reflexivity.
Qed.

(** A drawing of two closed polylines: the roof stands on one of largest
    polygon area. *)
Lemma roof_base_selection_witness :
  exists p b,
    In p (find_closed_polylines [diamond; square8] None 3
                                (_MIN_SIDE * _MIN_SIDE)) /\
    (forall q,
        In q (find_closed_polylines [diamond; square8] None 3
                                    (_MIN_SIDE * _MIN_SIDE)) ->
        pl_area q <= pl_area p) /\
    pl_bbox p = Some b /\
    draw_triangle_roof_over_largest_square [diamond; square8] None None (1 / 2) 0
    = Ret (Ok tt, [roof_polyline b (1 / 2) 0 (or_str None None)]).
Proof.
  apply (proj1 (roof_base_selection [diamond; square8] None None (1 / 2) 0)).
  rewrite diamond_and_square8_found. discriminate.
Defined.

(** ** What every reported square satisfies *)











(** ** What [inscribe_circles_in_squares] draws *)






(** ** The bounding box *)




(** ** A polyline drawn and read back *)





(** ** Reading the coordinates of a polyline *)






(** ** The grid of the quantization *)





(** ** When [_near] returns *)



(** ** What [find_closed_polylines] and [find_circles] return *)


(** ** The circles found and the largest of them *)





(** ** The loops the assembler returns *)











(** ** Squares drawn as four lines *)



Section Shifted.
Variables u s : R.
Hypothesis Hs : 0 < s.


End Shifted.
















